(** * RF Config App: validation, form state and configuration framing

    A shallow embedding of the React front end of [rf-config-app]
    ([frontend/src/App.jsx] and the wizard components [RFConfiguration],
    [StreamingProtocolSelector]) together with the frame codec and the serial
    transport manager that the specification describes. *)

From Stdlib Require Import ZArith QArith Qcanon Qround Qabs Lia Bool List Ascii String.
From stdpp Require Import gmap strings.
From coqutil Require Import Byte Word.LittleEndianList.
Import ListNotations.

Local Open Scope Z_scope.

(** ** The JavaScript runtime the components rely on *)

Module JS.

(** A Number is an IEEE 754 binary64 value.  Finite values are kept as the
    exact rational they denote (in lowest terms); the sign of zero is not
    kept, since neither the relational operators nor [isNaN] observe it. *)
Inductive number :=
| NaN
| Inf (negative : bool)
| Fin (x : Q).

Inductive value :=
| VUndefined
| VNull
| VBool (b : bool)
| VNumber (x : number)
| VString (s : string).

(** *** Rounding a real quantity to binary64 (round to nearest, ties to even) *)

(** Nearest integer to [n / d], ties to even, for [0 <= n]. *)
Definition rne (n : Z) (d : Z) : Z :=
  let q := n / d in
  let r := n mod d in
  match 2 * r ?= d with
  | Lt => q
  | Gt => q + 1
  | Eq => if Z.even q then q else q + 1
  end.

(** [2^e] for [0 <= e], and 1 below: a quantity is scaled by [2^e] by
    multiplying its numerator by [pow2 e] and its denominator by
    [pow2 (- e)]. *)
Definition pow2 (e : Z) : Z := 2 ^ Z.max 0 e.

(** [binade n d] is the integer [e] with [2^e <= n/d < 2^(e+1)]. *)
Definition binade (n d : Z) : Z :=
  let e0 := Z.log2 n - Z.log2 d in
  if (d * pow2 e0 <=? n * pow2 (- e0)) then e0 else e0 - 1.

(** The binary64 value nearest to [n / d], for [0 < n] and [0 < d]:
    53 significant bits, least exponent -1074, overflow at [2^1024]. *)
Definition round_pos (n d : Z) : number :=
  let e := binade n d in
  let q := Z.max (e - 52) (-1074) in
  let k := rne (n * pow2 (- q)) (d * pow2 q) in
  if (2 ^ 1024 * pow2 (- q) <=? k * pow2 q) then Inf false
  else Fin (Qred (Qmake (k * pow2 q) (Z.to_pos (pow2 (- q))))).

Definition negate (x : number) : number :=
  match x with
  | NaN => NaN
  | Inf s => Inf (negb s)
  | Fin q => Fin (Qred (- q))
  end.

(** The Number value for the real [n / d] with [0 < d]. *)
Definition round_ratio (n d : Z) : number :=
  match n ?= 0 with
  | Eq => Fin 0
  | Gt => round_pos n d
  | Lt => negate (round_pos (- n) d)
  end.

(** *** Relational operators and [isNaN] *)

Definition lt (x y : number) : bool :=
  match x, y with
  | NaN, _ | _, NaN => false
  | Inf true, Inf true => false
  | Inf true, _ => true
  | _, Inf true => false
  | Inf false, _ => false
  | _, Inf false => true
  | Fin a, Fin b => negb (Qle_bool b a)
  end.

(** [x <= y] *)
Definition le (x y : number) : bool :=
  match x, y with
  | NaN, _ | _, NaN => false
  | Inf true, _ => true
  | _, Inf true => false
  | _, Inf false => true
  | Inf false, _ => false
  | Fin a, Fin b => Qle_bool a b
  end.

(** [x > y] and [x >= y] *)
Definition gt (x y : number) : bool := lt y x.
Definition ge (x y : number) : bool := le y x.

Definition isNaN (x : number) : bool :=
  match x with NaN => true | _ => false end.

(** Number literals of the sources are integers. *)
Definition lit (n : Z) : number := Fin (inject_Z n).

(** ToBoolean *)
Definition truthy (v : value) : bool :=
  match v with
  | VUndefined | VNull => false
  | VBool b => b
  | VNumber NaN => false
  | VNumber (Inf _) => true
  | VNumber (Fin q) => negb (Qeq_bool q 0)
  | VString s => negb (String.eqb s "")
  end.

(** *** [parseFloat] *)

Definition isDigit (c : ascii) : bool :=
  let n := Z.of_nat (nat_of_ascii c) in (48 <=? n) && (n <=? 57).

Definition digitVal (c : ascii) : Z := Z.of_nat (nat_of_ascii c) - 48.

(** The longest run of decimal digits at the head of [s], and what follows. *)
Fixpoint takeDigits (s : string) : list Z * string :=
  match s with
  | String c s' =>
      if isDigit c then let '(ds, r) := takeDigits s' in (digitVal c :: ds, r)
      else ([], s)
  | EmptyString => ([], s)
  end.

(** The mathematical value of a digit sequence. *)
Definition digitsValue (ds : list Z) : Z :=
  fold_left (fun acc d => 10 * acc + d) ds 0.

(** One leading StrWhiteSpaceChar, if there is one: the ASCII white space
    and line terminators, and the UTF-8 encodings of U+00A0, U+1680,
    U+2000..U+200A, U+2028, U+2029, U+202F, U+205F, U+3000 and U+FEFF. *)
Definition dropWhiteSpaceChar (s : string) : option string :=
  match s with
  | String c r =>
      let n := nat_of_ascii c in
      if ((9 <=? n) && (n <=? 13) || (n =? 32))%nat then Some r
      else
        match n, r with
        | 194%nat, String c1 r1 =>
            if (nat_of_ascii c1 =? 160)%nat then Some r1 else None
        | 225%nat, String c1 (String c2 r2) =>
            if ((nat_of_ascii c1 =? 154) && (nat_of_ascii c2 =? 128))%nat
            then Some r2 else None
        | 226%nat, String c1 (String c2 r2) =>
            let n1 := nat_of_ascii c1 in
            let n2 := nat_of_ascii c2 in
            if ((n1 =? 128) && (128 <=? n2) && (n2 <=? 138)
                || (n1 =? 128) && ((n2 =? 168) || (n2 =? 169) || (n2 =? 175))
                || (n1 =? 129) && (n2 =? 159))%nat
            then Some r2 else None
        | 227%nat, String c1 (String c2 r2) =>
            if ((nat_of_ascii c1 =? 128) && (nat_of_ascii c2 =? 128))%nat
            then Some r2 else None
        | 239%nat, String c1 (String c2 r2) =>
            if ((nat_of_ascii c1 =? 187) && (nat_of_ascii c2 =? 191))%nat
            then Some r2 else None
        | _, _ => None
        end
  | EmptyString => None
  end.

(** Strip the leading white space; [fuel] bounds the characters removed. *)
Fixpoint trimStartFuel (fuel : nat) (s : string) : string :=
  match fuel with
  | O => s
  | S fuel' =>
      match dropWhiteSpaceChar s with
      | Some r => trimStartFuel fuel' r
      | None => s
      end
  end.

Definition trimStart (s : string) : string := trimStartFuel (String.length s) s.

Definition startsWith (p s : string) : bool := String.prefix p s.

(** The ExponentPart at the head of [s], when there is a complete one:
    [e] or [E], an optional sign, at least one digit. *)
Definition exponentPart (s : string) : Z :=
  match s with
  | String c r =>
      if (Ascii.eqb c "e" || Ascii.eqb c "E")%char then
        match r with
        | String sg r' =>
            if Ascii.eqb sg "-" then
              match takeDigits r' with
              | ([], _) => 0
              | (ds, _) => - digitsValue ds
              end
            else if Ascii.eqb sg "+" then digitsValue (fst (takeDigits r'))
            else digitsValue (fst (takeDigits r))
        | EmptyString => 0
        end
      else 0
  | EmptyString => 0
  end.

(** The Number value of [m * 10^e], for [0 <= m]. *)
Definition decimalValue (m e : Z) : number :=
  if 0 <=? e then round_ratio (m * 10 ^ e) 1 else round_ratio m (10 ^ (- e)).

(** The longest prefix of [s] that is a StrUnsignedDecimalLiteral. *)
Definition parseUnsigned (s : string) : number :=
  if startsWith "Infinity" s then Inf false
  else
    let '(ip, r1) := takeDigits s in
    match r1 with
    | String "."%char r1' =>
        let '(fp, r2) := takeDigits r1' in
        match ip, fp with
        | [], [] => NaN
        | _, _ =>
            decimalValue (digitsValue (ip ++ fp))
                         (exponentPart r2 - Z.of_nat (length fp))
        end
    | _ =>
        match ip with
        | [] => NaN
        | _ => decimalValue (digitsValue ip) (exponentPart r1)
        end
    end.

Definition parseFloatString (s : string) : number :=
  match trimStart s with
  | String "-"%char r => negate (parseUnsigned r)
  | String "+"%char r => parseUnsigned r
  | t => parseUnsigned t
  end.

(** [parseFloat(v)] parses [ToString(v)].  For a Number that string is the
    shortest decimal that reads back as the same Number ("NaN" and
    "Infinity" included), so the Number is returned as it is; the strings of
    [undefined], [null] and the booleans have no numeric prefix. *)
Definition parseFloat (v : value) : number :=
  match v with
  | VString s => parseFloatString s
  | VNumber x => x
  | VUndefined | VNull | VBool _ => NaN
  end.


(** *** Division by a positive integer literal *)

Definition quot (x : number) (d : positive) : number :=
  match x with
  | NaN => NaN
  | Inf s => Inf s
  | Fin q => round_ratio (Qnum q) (Z.pos (Qden q) * Z.pos d)
  end.

(** *** Number::toString (radix 10) *)

Definition digitChar (d : Z) : ascii := ascii_of_nat (Z.to_nat (48 + d)).

(** The digits [ds] as text. *)
Definition numeral (ds : list Z) : string :=
  fold_right (fun d r => String (digitChar d) r) EmptyString ds.

(** The [k] low decimal digits of [s], most significant first. *)
Fixpoint digitsOf (k : nat) (s : Z) : list Z :=
  match k with
  | O => []
  | S k' => digitsOf k' (s / 10) ++ [s mod 10]
  end.

(** Number of decimal digits of [s], for [0 < s]. *)
Definition decimalLength (s : Z) : nat := Z.to_nat (Z.log2 s * 78913 / 262144 + 1 +
  (if 10 ^ (Z.log2 s * 78913 / 262144 + 1) <=? s then 1 else 0)).

(** The decimal numeral of an integer [0 <= s]. *)
Definition integerNumeral (s : Z) : string :=
  if s =? 0 then "0" else numeral (digitsOf (decimalLength s) s).

(** [pow10 e] scales like [pow2]. *)
Definition pow10 (e : Z) : Z := 10 ^ Z.max 0 e.

(** The integer [n] with [10^(n-1) <= a/b < 10^n], for [0 < a], [0 < b]. *)
Definition decade (a b : Z) : Z :=
  let g := (Z.log2 a - Z.log2 b) * 78913 / 262144 in
  let fix up (fuel : nat) (n : Z) : Z :=
    match fuel with
    | O => n
    | S f => if (b * pow10 n <=? a * pow10 (- n)) then up f (n + 1) else n
    end in
  up 4%nat (g - 1).

Definition sameNumber (x y : number) : bool :=
  match x, y with
  | Fin a, Fin b => Qeq_bool a b
  | Inf s, Inf t => Bool.eqb s t
  | _, _ => false
  end.

(** The candidates with [k] digits for the positive [a/b] in decade [n]:
    the scaled value rounded down and up, each with its decimal exponent;
    those that read back as the same Number are kept, the nearer first. *)
Definition shortestAt (x : number) (a b n : Z) (k : nat) : option (Z * Z) :=
  let sh := n - Z.of_nat k in
  let num := a * pow10 (- sh) in
  let den := b * pow10 sh in
  let lo := num / den in
  let hi := lo + 1 in
  let ok s := sameNumber (decimalValue s sh) x in
  let norm s := if s =? 10 ^ Z.of_nat k then (s / 10, n + 1) else (s, n) in
  let lower := 2 * (num mod den) <? den in
  let tie := 2 * (num mod den) =? den in
  let preferLo := lower || (tie && Z.even lo) in
  match ok lo, ok hi with
  | true, true => Some (if preferLo then norm lo else norm hi)
  | true, false => Some (norm lo)
  | false, true => Some (norm hi)
  | false, false => None
  end.

Fixpoint shortestFrom (x : number) (a b n : Z) (k fuel : nat) : Z * Z * nat :=
  match fuel with
  | O => (0, 0, k)
  | S f =>
      match shortestAt x a b n k with
      | Some (s, n') => (s, n', k)
      | None => shortestFrom x a b n (S k) f
      end
  end.

Definition zeros (n : nat) : string := numeral (repeat 0 n).

(** The text of the positive finite Number [q]. *)
Definition positiveToString (q : Q) : string :=
  let a := Qnum q in
  let b := Z.pos (Qden q) in
  let '(s, n, k) := shortestFrom (Fin q) a b (decade a b) 1%nat 17%nat in
  let ds := digitsOf k s in
  let kz := Z.of_nat k in
  if (kz <=? n) && (n <=? 21) then
    numeral ds +:+ zeros (Z.to_nat (n - kz))
  else if (0 <? n) && (n <=? 21) then
    numeral (firstn (Z.to_nat n) ds) +:+ "." +:+ numeral (skipn (Z.to_nat n) ds)
  else if (-6 <? n) && (n <=? 0) then
    "0." +:+ zeros (Z.to_nat (- n)) +:+ numeral ds
  else
    let e := n - 1 in
    let es := (if e <? 0 then "-" else "+") +:+ integerNumeral (Z.abs e) in
    match ds with
    | [d] => numeral [d] +:+ "e" +:+ es
    | d :: rest => numeral [d] +:+ "." +:+ numeral rest +:+ "e" +:+ es
    | [] => ""
    end.

Definition numberToString (x : number) : string :=
  match x with
  | NaN => "NaN"
  | Inf true => "-Infinity"
  | Inf false => "Infinity"
  | Fin q =>
      match Z.compare (Qnum q) 0 with
      | Eq => "0"
      | Gt => positiveToString q
      | Lt => "-" +:+ positiveToString (- q)
      end
  end.

End JS.

(** ** The main form: [frontend/src/App.jsx] *)

Module App.
Import JS.

(** An object literal keeps its keys in insertion order; [Object.keys]
    enumerates them in that order. *)
Definition get {A} (o : list (string * A)) (k : string) : option A :=
  snd <$> find (fun p => String.eqb (fst p) k) o.

Definition keys {A} (o : list (string * A)) : list string := map fst o.

Record range := { min : number; max : number; label : string }.

(* Validation ranges *)
Definition ranges : list (string * range) :=
  [ ("fc",  {| min := lit 1000000; max := lit 6000000000; label := "1 MHz - 6 GHz" |});
    ("fs",  {| min := lit 1000000; max := lit 20000000;   label := "1 MHz - 20 MHz" |});
    ("rfg", {| min := lit 0; max := lit 47; label := "0-47 dB" |});
    ("ifg", {| min := lit 0; max := lit 40; label := "0-40 dB" |});
    ("bbg", {| min := lit 0; max := lit 62; label := "0-62 dB" |}) ].

(** [status] is [null] or [{ type, message }]. *)
Record statusMessage := { type : string; message : string }.

(** The component state: the four [useState] cells. *)
Record state := {
  config : gmap string value;
  status : option statusMessage;
  isSubmitting : bool;
  errors : gmap string string
}.

Definition setConfig (c : gmap string value) (st : state) : state :=
  {| config := c; status := status st;
     isSubmitting := isSubmitting st; errors := errors st |}.
Definition setStatus (s : option statusMessage) (st : state) : state :=
  {| config := config st; status := s;
     isSubmitting := isSubmitting st; errors := errors st |}.
Definition setIsSubmitting (b : bool) (st : state) : state :=
  {| config := config st; status := status st;
     isSubmitting := b; errors := errors st |}.
Definition setErrors (e : gmap string string) (st : state) : state :=
  {| config := config st; status := status st;
     isSubmitting := isSubmitting st; errors := e |}.

(** The object literal passed to [useState]; the duplicated keys [rfg],
    [ifg], [bbg] of the source keep their last (equal) value. *)
Definition initialConfig : gmap string value :=
  <["port" := VString ""]>
  (<["filePath" := VString ""]>
  (<["bbg" := VNumber (lit 30)]>
  (<["ifg" := VNumber (lit 20)]>
  (<["rfg" := VNumber (lit 14)]>
  (<["bbg" := VNumber (lit 30)]>
  (<["ifg" := VNumber (lit 20)]>
  (<["rfg" := VNumber (lit 14)]>
  (<["fs" := VNumber (lit 2000000)]>
  (<["fc" := VNumber (lit 915000000)]>
  (<["modulation" := VString "QPSK"]>
  (<["streamingProtocol" := VString "uart"]>
  (<["deviceMode" := VString "receive"]> ∅)))))))))))).

Definition initialState : state :=
  {| config := initialConfig; status := None;
     isSubmitting := false; errors := ∅ |}.

(** [o[k]]: a missing property reads as [undefined]. *)
Definition prop (o : gmap string value) (k : string) : value :=
  default VUndefined (o !! k).

(** The names that every object literal inherits from [Object.prototype]:
    under them [ranges[field]] is a function or an object, which is truthy
    and has neither [min] nor [max]. *)
Definition inherited : list string :=
  [ "constructor"; "hasOwnProperty"; "isPrototypeOf"; "propertyIsEnumerable";
    "toLocaleString"; "toString"; "valueOf"; "__proto__";
    "__defineGetter__"; "__defineSetter__"; "__lookupGetter__"; "__lookupSetter__" ].

Definition validateField (field : string) (v : value) : bool :=
  match get ranges field with
  | None =>
      if bool_decide (field ∈ inherited) then
        (* the bounds read [undefined], and no comparison with it holds *)
        false
      else true
  | Some range =>
      let numValue := parseFloat v in
      if isNaN numValue then false
      else ge numValue (min range) && le numValue (max range)
  end.

(** The [newErrors] object that [validateAll] builds from [config]. *)
Definition newErrors (c : gmap string value) : gmap string string :=
  fold_left
    (fun acc '(field, r) =>
       if negb (validateField field (prop c field))
       then <[field := "Must be between " +:+ label r]> acc
       else acc)
    ranges ∅.

(** [validateAll]: stores the errors and tells whether there are none. *)
Definition validateAll (st : state) : bool * state :=
  let e := newErrors (config st) in
  (bool_decide (size e = 0%nat), setErrors e st).

(** What the component sends, and what comes back. *)
Record request := { url : string; body : gmap string value }.

Inductive response :=
| HttpOk (data : gmap string string)
| HttpError (data : gmap string string)
| NetworkFailure (message : string).

(** [o.k || fallback] on a parsed reply whose fields are strings. *)
Definition orElse (o : gmap string string) (k fallback : string) : string :=
  match o !! k with
  | Some s => if String.eqb s "" then fallback else s
  | None => fallback
  end.

(** [`${o.k}`] *)
Definition show (o : gmap string string) (k : string) : string :=
  default "undefined" (o !! k).

Inductive error :=
| ReferenceError (name : string)
| TypeError (name : string).

(** How a call ends: normally, with its result, the new state and the
    requests it issued, or by throwing. *)
Inductive completion :=
| Normal (result : value) (st : state) (sent : list request)
| Throw (e : error) (st : state).

(** A handler that has run to its end. *)
Definition finish (st : state) (sent : list request) : completion :=
  Normal VUndefined st sent.

Section Handlers.

(** The back end, as the component sees it through [fetch]. *)
Variable fetch : request -> response.

Definition handleSubmit (st : state) : completion :=
  let '(valid, st) := validateAll st in
  if negb valid then
    finish (setStatus (Some {| type := "error";
              message := "Please fix validation errors before saving" |}) st) []
  else
    let st := setStatus None (setIsSubmitting true st) in
    let req := {| url := "/api/config"; body := config st |} in
    let st :=
      match fetch req with
      | HttpOk data =>
          setStatus (Some {| type := "success";
            message := "Configuration saved successfully! Files: "
                       +:+ show data "bin_file" +:+ ", " +:+ show data "txt_file" |}) st
      | HttpError err =>
          setStatus (Some {| type := "error";
            message := orElse err "error" "Failed to save configuration" |}) st
      | NetworkFailure m =>
          setStatus (Some {| type := "error"; message := "Network error: " +:+ m |}) st
      end in
    finish (setIsSubmitting false st) [req].

Definition updateConfig (field : string) (v : value) (st : state) : state :=
  let st' := setConfig (<[field := v]> (config st)) st in
  (* Clear error for this field when user types *)
  match errors st !! field with
  | Some m => if String.eqb m "" then st' else setErrors (delete field (errors st)) st'
  | None => st'
  end.

(** [file] is [e.target.files[0]], given by [file.path || file.name]. *)
Definition handleFileSelect (file : option string) (st : state) : state :=
  match file with
  | Some name => updateConfig "filePath" (VString name) st
  | None => st
  end.

(** The reply to a connection or send request, as a status message. *)
Definition replyStatus (r : response) : statusMessage :=
  match r with
  | HttpOk data => {| type := "success"; message := show data "message" |}
  | HttpError data =>
      {| type := "error";
         message := match data !! "message" with
                    | Some m => if String.eqb m "" then show data "error" else m
                    | None => show data "error"
                    end |}
  | NetworkFailure m => {| type := "error"; message := "Network error: " +:+ m |}
  end.

Definition portRequest (u : string) (st : state) : request :=
  {| url := u; body := {[ "port" := prop (config st) "port" ]} |}.

Definition handleCheckConnection (st : state) : completion :=
  if negb (truthy (prop (config st) "port")) then
    finish (setStatus (Some {| type := "error";
              message := "Please enter a Serial Port first" |}) st) []
  else
    let req := portRequest "/api/connection" st in
    finish (setStatus (Some (replyStatus (fetch req))) st) [req].

Definition handleSendConfig (st : state) : completion :=
  if negb (truthy (prop (config st) "port")) then
    finish (setStatus (Some {| type := "error";
              message := "Please enter a Serial Port" |}) st) []
  else
    let req := portRequest "/api/send" st in
    finish (setStatus (Some (replyStatus (fetch req))) st) [req].

(** The object given to [setConfig] by the "Reset to Defaults" button. *)
Definition defaults : gmap string value :=
  <["filePath" := VString ""]>
  (<["bbg" := VNumber (lit 30)]>
  (<["ifg" := VNumber (lit 20)]>
  (<["rfg" := VNumber (lit 14)]>
  (<["fs" := VNumber (lit 2000000)]>
  (<["fc" := VNumber (lit 915000000)]>
  (<["modulation" := VString "QPSK"]>
  (<["streamingProtocol" := VString "uart"]>
  (<["deviceMode" := VString "receive"]> ∅)))))))).

Definition resetToDefaults (st : state) : state :=
  setErrors ∅ (setConfig defaults st).

(** *** Names and their resolution

    What an identifier of the component body stands for: a value, or a
    function of the component that a JSX handler may call. *)
Inductive binding :=
| Const
| Callable (f : list value -> state -> completion).

Definition asString (v : value) : string :=
  match v with VString s => s | _ => "" end.

Definition arg (args : list value) (i : nat) : value :=
  nth i args VUndefined.

(** The identifiers in scope in the body of [App]: its own declarations,
    the import, and the globals the body uses. *)
Definition scope : list (string * binding) :=
  [ ("config", Const); ("setConfig", Const);
    ("status", Const); ("setStatus", Const);
    ("isSubmitting", Const); ("setIsSubmitting", Const);
    ("errors", Const); ("setErrors", Const);
    ("ranges", Const);
    ("validateField",
      Callable (fun a st =>
        Normal (VBool (validateField (asString (arg a 0)) (arg a 1))) st []));
    ("validateAll",
      Callable (fun _ st =>
        let '(valid, st) := validateAll st in Normal (VBool valid) st []));
    ("handleSubmit", Callable (fun _ st => handleSubmit st));
    ("updateConfig",
      Callable (fun a st => finish (updateConfig (asString (arg a 0)) (arg a 1) st) []));
    ("handleFileSelect",
      Callable (fun a st =>
        finish (handleFileSelect
                  (match arg a 0 with VString s => Some s | _ => None end) st) []));
    ("handleCheckConnection", Callable (fun _ st => handleCheckConnection st));
    ("handleSendConfig", Callable (fun _ st => handleSendConfig st));
    ("hasErrors", Const);
    ("useState", Const); ("App", Const);
    ("parseFloat", Const); ("isNaN", Const); ("Object", Const);
    ("JSON", Const); ("fetch", Const) ].

(** The call [f(args)] in the body of [App]. *)
Definition call (f : string) (args : list value) (st : state) : completion :=
  match get scope f with
  | None => Throw (ReferenceError f) st
  | Some Const => Throw (TypeError f) st
  | Some (Callable h) => h args st
  end.

(** The events of the form and the handlers the JSX attaches to them. *)
Inductive event :=
| Submit
| Change (field : string) (v : string)
| Blur (field : string)
| FileChosen (file : option string)
| ResetClicked
| CheckConnectionClicked
| SendClicked.

(** The [id]s of the inputs that carry an [onBlur] attribute. *)
Definition numericInputs : list string := ["fc"; "fs"; "rfg"; "ifg"; "bbg"].

Definition dispatch (ev : event) (st : state) : completion :=
  match ev with
  | Submit => handleSubmit st
  | Change field v => finish (updateConfig field (VString v) st) []
  | Blur field =>
      if bool_decide (field ∈ numericInputs)
      then call "handleBlur" [VString field] st
      else finish st []
  | FileChosen file => finish (handleFileSelect file st) []
  | ResetClicked => finish (resetToDefaults st) []
  | CheckConnectionClicked => handleCheckConnection st
  | SendClicked => handleSendConfig st
  end.

End Handlers.

End App.

(** ** The wizard step [RFConfiguration] *)

Module RFConfiguration.
Import JS.

Record rule := {
  min : number; max : number; unit : string; label : string; hint : string
}.

(* Validation ranges (these can be adjusted based on actual hardware specs) *)
Definition validationRules : list (string * rule) :=
  [ ("fc",  {| min := lit 1000000; max := lit 6000000000; unit := "Hz";
               label := "Carrier Frequency"; hint := "Range: 1 MHz - 6 GHz" |});
    ("fs",  {| min := lit 1000000; max := lit 20000000; unit := "Hz";
               label := "Sampling Frequency"; hint := "Range: 1 MHz - 20 MHz" |});
    ("rfg", {| min := lit 0; max := lit 47; unit := "dB";
               label := "RF Gain"; hint := "Range: 0 - 47 dB" |});
    ("ifg", {| min := lit 0; max := lit 40; unit := "dB";
               label := "IF Gain"; hint := "Range: 0 - 40 dB" |});
    ("bbg", {| min := lit 0; max := lit 62; unit := "dB";
               label := "Baseband Gain"; hint := "Range: 0 - 62 dB" |}) ].

Definition formatValue (v : number) (u : string) : string :=
  if String.eqb u "Hz" then
    if ge v (lit 1000000000) then numberToString (quot v 1000000000) +:+ " GHz"
    else if ge v (lit 1000000) then numberToString (quot v 1000000) +:+ " MHz"
    else if ge v (lit 1000) then numberToString (quot v 1000) +:+ " kHz"
    else numberToString v +:+ " Hz"
  else numberToString v +:+ " " +:+ u.

(** The text of an input; [None] is the [null] of a valid field.  A name
    that [validationRules] only inherits has no [min] and no [max] to
    compare with, so it is treated as a name without rule. *)
Definition validateField (name value : string) : option string :=
  if String.eqb value "" then Some "This field is required"
  else
    let numValue := parseFloatString value in
    if isNaN numValue then Some "Must be a valid number"
    else
      match App.get validationRules name with
      | Some rule =>
          if lt numValue (min rule) then
            Some ("Value too low. Minimum: " +:+ formatValue (min rule) (unit rule))
          else if gt numValue (max rule) then
            Some ("Value too high. Maximum: " +:+ formatValue (max rule) (unit rule))
          else None
      | None => None
      end.

Record state := {
  formData : gmap string string;
  errors : gmap string (option string);
  touched : gmap string bool
}.

Definition initialState : state :=
  {| formData := <["bbg" := ""]> (<["ifg" := ""]> (<["rfg" := ""]>
                 (<["fs" := ""]> (<["fc" := ""]> (<["modulation" := "QPSK"]> ∅)))));
     errors := ∅; touched := ∅ |}.

(** [formData[k]] as the text it holds; a missing key is as falsy as ['']. *)
Definition field (d : gmap string string) (k : string) : string :=
  default "" (d !! k).

Definition handleChange (name value : string) (st : state) : state :=
  {| formData := <[name := value]> (formData st);
     errors := if default false (touched st !! name)
               then <[name := validateField name value]> (errors st)
               else errors st;
     touched := touched st |}.

Definition handleBlur (name value : string) (st : state) : state :=
  {| formData := formData st;
     errors := <[name := validateField name value]> (errors st);
     touched := <[name := true]> (touched st) |}.

(* Validate all fields *)
Definition newErrors (d : gmap string string) : gmap string (option string) :=
  fold_left
    (fun acc '(f, _) =>
       match validateField f (field d f) with
       | Some m => if String.eqb m "" then acc else <[f := Some m]> acc
       | None => acc
       end)
    validationRules ∅.

Definition allTouched : gmap string bool :=
  <["bbg" := true]> (<["ifg" := true]> (<["rfg" := true]>
  (<["fs" := true]> (<["fc" := true]> ∅)))).

(** The object handed to [onSubmit]. *)
Definition submission (d : gmap string string) : gmap string value :=
  <["bbg" := VNumber (parseFloatString (field d "bbg"))]>
  (<["ifg" := VNumber (parseFloatString (field d "ifg"))]>
  (<["rfg" := VNumber (parseFloatString (field d "rfg"))]>
  (<["fs" := VNumber (parseFloatString (field d "fs"))]>
  (<["fc" := VNumber (parseFloatString (field d "fc"))]>
  (<["modulation" := VString (field d "modulation")]> ∅))))).

(** The new state, and the argument of [onSubmit] when it is called. *)
Definition handleSubmit (st : state) : state * option (gmap string value) :=
  let e := newErrors (formData st) in
  if bool_decide (0 < size e)%nat then
    ({| formData := formData st; errors := e; touched := allTouched |}, None)
  else
    (st, Some (submission (formData st))).

End RFConfiguration.

(** ** The wizard step [StreamingProtocolSelector] *)

Module StreamingProtocolSelector.

(** A call of the [onSelect] prop: the protocol id and, for a file, the
    chosen [File] (its name). *)
Record selection := { protocolId : string; file : option string }.

Definition protocols : list string := ["uart"; "i2c"; "spi"; "file"].

(** The state cell [selectedFile]. *)
Definition state := option string.

Definition handleProtocolSelect (protocolId : string) : list selection :=
  if String.eqb protocolId "file" then
    (* Don't proceed immediately, wait for file selection *)
    []
  else [ {| protocolId := protocolId; file := None |} ].

(** [chosen] is [event.target.files[0]]. *)
Definition handleFileChange (chosen : option string) (st : state)
  : state * list selection :=
  match chosen with
  | Some f => (Some f, [ {| protocolId := "file"; file := Some f |} ])
  | None => (st, [])
  end.

End StreamingProtocolSelector.

(** ** The data model of the specification *)

Module Spec.
Import JS.

(** The inclusive domain of each numeric field of a ConfigurationRecord,
    under the name the form gives the field. *)
Definition domain (field : string) : option (Z * Z) :=
  if String.eqb field "fc" then Some (1000000, 6000000000)
  else if String.eqb field "fs" then Some (1000000, 20000000)
  else if String.eqb field "rfg" then Some (0, 47)
  else if String.eqb field "ifg" then Some (0, 40)
  else if String.eqb field "bbg" then Some (0, 62)
  else None.

Definition isDecimalDigit (d : Z) : Prop := 0 <= d <= 9.

(** [denotes v n]: the form value [v] is the integer [n], held as a Number
    or written as a decimal numeral, with a minus sign when negative. *)
Inductive denotes : value -> Z -> Prop :=
| denotes_number (n : Z) : denotes (VNumber (lit n)) n
| denotes_numeral (ds : list Z) :
    ds <> [] -> Forall isDecimalDigit ds ->
    denotes (VString (numeral ds)) (digitsValue ds)
| denotes_negative (ds : list Z) :
    ds <> [] -> Forall isDecimalDigit ds ->
    denotes (VString (String "-" (numeral ds))) (- digitsValue ds).

(** A text that cannot continue a decimal numeral: it is empty, or starts
    with something other than a digit, a point or an exponent letter. *)
Definition stops (rest : string) : bool :=
  match rest with
  | EmptyString => true
  | String c _ =>
      negb (isDigit c || Ascii.eqb c "." || Ascii.eqb c "e" || Ascii.eqb c "E")
  end.

(** A text of [k] spaces. *)
Fixpoint blanks (k : nat) : string :=
  match k with
  | O => ""
  | S k' => String " " (blanks k')
  end.

(** An unsigned-integer numeral: one decimal digit or more, nothing else. *)
Fixpoint allDigits (s : string) : bool :=
  match s with
  | EmptyString => true
  | String c r => isDigit c && allDigits r
  end.

Definition isUnsignedNumeral (s : string) : bool :=
  negb (String.eqb s "") && allDigits s.

(** The Number that the integer [n] becomes: [n] itself when a Number,
    otherwise a Number of the same sign beyond [2^53]. *)
Definition reads (x : number) (n : Z) : Prop :=
  x = lit n \/
  (2 ^ 53 <= n /\ (x = Inf false \/ exists q, x = Fin q /\ (inject_Z (2 ^ 53) <= q)%Q)) \/
  (n <= - 2 ^ 53 /\ (x = Inf true \/ exists q, x = Fin q /\ (q <= inject_Z (- 2 ^ 53))%Q)).

(** The first field, in the order of the form's ranges, whose value the
    validator rejects. *)
Definition firstViolation (c : gmap string value) : option string :=
  find (fun f => negb (App.validateField f (App.prop c f))) (App.keys App.ranges).

End Spec.

(** ** The frame codec *)

Module Codec.

Inductive device_mode := Receive | Transmit.
Inductive streaming_protocol := UART | I2C | SPI | File.
Inductive modulation := BPSK | QPSK | FSK.

(** Modelled from the spec: the ConfigurationRecord of the data model; the
    repository's [backend/binary_protocol.py] is not among the sources.
    The unsigned fields are integers, their widths are those of the
    layout. *)
Record ConfigurationRecord := {
  mode : device_mode;
  protocol : streaming_protocol;
  scheme : modulation;
  carrier_frequency_hz : Z;
  sampling_frequency_hz : Z;
  rf_gain_db : Z;
  if_gain_db : Z;
  baseband_gain_db : Z;
  source_file_path : option string
}.

Inductive reason :=
| OutOfRange (lo hi : Z)
| MissingPath.

Record ValidationError := { field : string; why : reason }.

Inductive FrameError := Malformed | ChecksumInvalid | UnsupportedVersion.

Definition within (lo hi x : Z) : bool := (lo <=? x) && (x <=? hi).

(** Modelled from the spec: [validate] of the Frame Codec, which is
    missing from the sources.  Every field is checked against its domain,
    the File protocol requires a non-empty path, and the first violation
    is returned with the field name and the allowed range. *)
Definition validate (r : ConfigurationRecord) : option ValidationError :=
  if negb (within 1000000 6000000000 (carrier_frequency_hz r)) then
    Some {| field := "carrier_frequency_hz"; why := OutOfRange 1000000 6000000000 |}
  else if negb (within 1000000 20000000 (sampling_frequency_hz r)) then
    Some {| field := "sampling_frequency_hz"; why := OutOfRange 1000000 20000000 |}
  else if negb (within 0 47 (rf_gain_db r)) then
    Some {| field := "rf_gain_db"; why := OutOfRange 0 47 |}
  else if negb (within 0 40 (if_gain_db r)) then
    Some {| field := "if_gain_db"; why := OutOfRange 0 40 |}
  else if negb (within 0 62 (baseband_gain_db r)) then
    Some {| field := "baseband_gain_db"; why := OutOfRange 0 62 |}
  else
    match protocol r, source_file_path r with
    | File, None => Some {| field := "source_file_path"; why := MissingPath |}
    | File, Some path =>
        if String.eqb path ""
        then Some {| field := "source_file_path"; why := MissingPath |}
        else None
    | _, _ => None
    end.

(** The one-byte codes of the enumerations, in the order the data model
    lists their members. *)
Definition mode_code (m : device_mode) : Z :=
  match m with Receive => 0 | Transmit => 1 end.
Definition protocol_code (p : streaming_protocol) : Z :=
  match p with UART => 0 | I2C => 1 | SPI => 2 | File => 3 end.
Definition modulation_code (m : modulation) : Z :=
  match m with BPSK => 0 | QPSK => 1 | FSK => 2 end.

Definition mode_of (c : Z) : option device_mode :=
  if c =? 0 then Some Receive else if c =? 1 then Some Transmit else None.
Definition protocol_of (c : Z) : option streaming_protocol :=
  if c =? 0 then Some UART else if c =? 1 then Some I2C
  else if c =? 2 then Some SPI else if c =? 3 then Some File else None.
Definition modulation_of (c : Z) : option modulation :=
  if c =? 0 then Some BPSK else if c =? 1 then Some QPSK
  else if c =? 2 then Some FSK else None.

(** The first [n] bytes of [bs] and the rest, when there are that many. *)
Definition take (n : nat) (bs : list byte) : option (list byte * list byte) :=
  if (n <=? length bs)%nat then Some (firstn n bs, skipn n bs) else None.

(** CRC-16/CCITT: polynomial 0x1021, initial value 0xFFFF, most
    significant bit first. *)
Definition crc16_bit (x : Z) : Z :=
  let shifted := Z.land (Z.shiftl x 1) 65535 in
  if Z.testbit x 15 then Z.lxor shifted 4129 else shifted.

Definition crc16_byte (crc : Z) (b : byte) : Z :=
  Nat.iter 8 crc16_bit (Z.lxor crc (Z.shiftl (byte.unsigned b) 8)).

Definition crc16_ccitt (bs : list byte) : Z := fold_left crc16_byte bs 65535.

Record ConfigFrame := { bytes : list byte; checksum_value : Z }.

Section Layout.

(** What the specification leaves to the implementer: the value of the
    magic/version byte, the byte order, and the checksum, with its width
    in bytes. *)
Variable version : byte.
Variable big_endian : bool.
Variable checksum_width : nat.
Variable checksum : list byte -> Z.

(** An unsigned integer in [n] bytes. *)
Definition put (n : nat) (x : Z) : list byte :=
  if big_endian then rev (le_split n x) else le_split n x.

Definition get_uint (bs : list byte) : Z :=
  le_combine (if big_endian then rev bs else bs).

Definition payload (r : ConfigurationRecord) : list byte :=
  [version; byte.of_Z (mode_code (mode r)); byte.of_Z (protocol_code (protocol r));
   byte.of_Z (modulation_code (scheme r))]
  ++ put 8 (carrier_frequency_hz r)
  ++ put 4 (sampling_frequency_hz r)
  ++ [byte.of_Z (rf_gain_db r); byte.of_Z (if_gain_db r);
      byte.of_Z (baseband_gain_db r)].

(** The checksum field of a payload. *)
Definition checksum_of (bs : list byte) : Z :=
  checksum bs mod 2 ^ (Z.of_nat checksum_width * 8).

(** Modelled from the spec: [encode], missing from the sources.  It runs
    [validate] first, then lays the fields out in the documented order and
    widths (1 version byte, 1 byte each for mode, protocol and modulation,
    8 bytes of carrier frequency, 4 of sampling frequency, 1 byte per
    gain) and appends the checksum of all that precedes. *)
Definition encode (r : ConfigurationRecord) : ConfigFrame + ValidationError :=
  match validate r with
  | Some e => inr e
  | None =>
      let body := payload r in
      inl {| bytes := body ++ put checksum_width (checksum_of body);
             checksum_value := checksum_of body |}
  end.

(** The fields of a payload whose checksum has been verified. *)
Definition parse (body : list byte) : ConfigurationRecord + FrameError :=
  match body with
  | v :: m :: p :: s :: rest =>
      if negb (byte.unsigned v =? byte.unsigned version) then inr UnsupportedVersion
      else
        match mode_of (byte.unsigned m), protocol_of (byte.unsigned p),
              modulation_of (byte.unsigned s), take 8 rest with
        | Some m', Some p', Some s', Some (fc, rest1) =>
            match take 4 rest1 with
            | Some (fs, [rfg; ifg; bbg]) =>
                inl {| mode := m'; protocol := p'; scheme := s';
                       carrier_frequency_hz := get_uint fc;
                       sampling_frequency_hz := get_uint fs;
                       rf_gain_db := byte.unsigned rfg;
                       if_gain_db := byte.unsigned ifg;
                       baseband_gain_db := byte.unsigned bbg;
                       source_file_path := None |}
            | _ => inr Malformed
            end
        | _, _, _, _ => inr Malformed
        end
  | _ => inr Malformed
  end.

(** Modelled from the spec: [decode], missing from the sources.  The
    checksum is recomputed over the bytes that precede the checksum field
    and compared before any field is interpreted; the fixed layout has no
    field for the file path. *)
Definition decode (bs : list byte) : ConfigurationRecord + FrameError :=
  match take 19 bs with
  | Some (body, stored) =>
      if negb (length stored =? checksum_width)%nat then inr Malformed
      else if negb (get_uint stored =? checksum_of body) then inr ChecksumInvalid
      else parse body
  | None => inr Malformed
  end.

End Layout.

(** The record that a frame can carry: [r] without its file path. *)
Definition framed (r : ConfigurationRecord) : ConfigurationRecord :=
  {| mode := mode r; protocol := protocol r; scheme := scheme r;
     carrier_frequency_hz := carrier_frequency_hz r;
     sampling_frequency_hz := sampling_frequency_hz r;
     rf_gain_db := rf_gain_db r; if_gain_db := if_gain_db r;
     baseband_gain_db := baseband_gain_db r;
     source_file_path := None |}.

End Codec.

(** ** The serial transport manager *)

Module Transport.

(** Modelled from the spec: the states of a SerialSession and the
    transitions of the state machine of the Serial Transport Manager; the
    repository's [backend/uart_sender.py] is not among the sources. *)
Inductive session_state := Closed | Opening | Open | Sending | AwaitingAck | Closing.

Inductive step : session_state -> session_state -> Prop :=
| step_opening : step Closed Opening
| step_opened : step Opening Open
| step_sending : step Open Sending
| step_written : step Sending AwaitingAck
| step_replied : step AwaitingAck Open
| step_cancelled : step AwaitingAck Closing
| step_closing : step Open Closing
| step_released : step Closing Closed
| step_fatal (s : session_state) : step s Closed.

(** A sequence of states that the state machine allows. *)
Fixpoint run (from : session_state) (path : list session_state) : Prop :=
  match path with
  | [] => True
  | s :: rest => step from s /\ run s rest
  end.

Inductive TransmissionOutcome :=
| Acknowledged
| DeviceRejected (code : Z)
| Timeout
| PortUnavailable
| ChecksumMismatchReportedByDevice.

Inductive ConnectionStatus :=
| Reachable
| Unreachable (reason : string).

(** What the device answers to a frame. *)
Inductive device_reply :=
| ReplyAck
| ReplyChecksumFailure
| ReplyRejected (code : Z).

(** What the port and the device do during one operation: whether the
    port can be opened within the timeout; how many bytes a write
    accepts, if it does not fail; the reply that arrives within the
    timeout, if any. *)
Record line := {
  opens : bool;
  written : option nat;
  reply : option device_reply
}.

(** The ports held within the process, each with the session that owns
    it: at most one session per port name. *)
Abbreviation ports := (gmap string nat).

(** The exchange on an open session: the outcome, the states the session
    goes through after [Open], and whether it is open at the end. *)
Definition exchange (frame : list byte) (l : line)
  : TransmissionOutcome * list session_state * bool :=
  match written l with
  | None => (PortUnavailable, [Sending; Closed], false)
  | Some n =>
      if (n <? length frame)%nat then (PortUnavailable, [Sending; Closed], false)
      else
        match reply l with
        | None => (Timeout, [Sending; AwaitingAck; Closing; Closed], false)
        | Some ReplyAck => (Acknowledged, [Sending; AwaitingAck; Open], true)
        | Some ReplyChecksumFailure =>
            (ChecksumMismatchReportedByDevice, [Sending; AwaitingAck; Open], true)
        | Some (ReplyRejected code) =>
            (DeviceRejected code, [Sending; AwaitingAck; Open], true)
        end
  end.

(** Modelled from the spec: [close], the scoped release of a session. *)
Definition close (held : ports) (port : string) : ports := delete port held.

(** Modelled from the spec: [send].  It reuses the session of the caller
    when the caller holds the port, fails fast when another session does,
    and otherwise opens the port for the exchange and releases it. *)
Definition send (held : ports) (caller : nat) (port : string)
  (frame : list byte) (l : line)
  : TransmissionOutcome * ports * list session_state :=
  match held !! port with
  | Some owner =>
      if (owner =? caller)%nat then
        let '(outcome, path, still_open) := exchange frame l in
        (outcome, if still_open then held else close held port, path)
      else (PortUnavailable, held, [])
  | None =>
      if opens l then
        let held1 := <[port := caller]> held in
        let '(outcome, path, still_open) := exchange frame l in
        (outcome, close held1 port,
         [Opening; Open] ++ path ++ (if still_open then [Closing; Closed] else []))
      else (PortUnavailable, held, [Opening; Closed])
  end.

(** Modelled from the spec: [probe].  It opens the named port, may
    exchange a ping, and closes the port. *)
Definition probe (held : ports) (caller : nat) (port : string) (l : line)
  : ConnectionStatus * ports * list session_state :=
  match held !! port with
  | Some _ => (Unreachable "port in use", held, [])
  | None =>
      if opens l then
        let held1 := <[port := caller]> held in
        match reply l with
        | Some _ => (Reachable, close held1 port, [Opening; Open; Closing; Closed])
        | None =>
            (Unreachable "no answer", close held1 port,
             [Opening; Open; Closing; Closed])
        end
      else (Unreachable "cannot open port", held, [Opening; Closed])
  end.

(** The sends of a caller in turn, on whatever session it holds. *)
Fixpoint send_each (held : ports) (caller : nat) (port : string)
  (work : list (list byte * line)) : list TransmissionOutcome * ports :=
  match work with
  | [] => ([], held)
  | (frame, l) :: rest =>
      let '(outcome, held1, _) := send held caller port frame l in
      let '(outcomes, held2) := send_each held1 caller port rest in
      (outcome :: outcomes, held2)
  end.

(** Modelled from the spec: a caller that acquires a session for a scope,
    sends within it, and leaves the scope; the session is closed on the
    way out, whatever happened inside. *)
Definition with_session (held : ports) (caller : nat) (port : string)
  (granted : bool) (work : list (list byte * line))
  : option (list TransmissionOutcome) * ports :=
  match held !! port with
  | Some _ => (None, held)
  | None =>
      if granted then
        let '(outcomes, held1) :=
          send_each (<[port := caller]> held) caller port work in
        (Some outcomes, close held1 port)
      else (None, held)
  end.

End Transport.

(** ** Runs of the main form *)

Module AppRun.
Import JS App.

(* const hasErrors = Object.keys(errors).length > 0 *)
Definition hasErrors (st : state) : bool := bool_decide (0 < size (errors st))%nat.

(** The state that a handler leaves behind, also when it throws, and the
    requests it issued. *)
Definition settle (c : completion) : state :=
  match c with Normal _ st _ => st | Throw _ st => st end.

Definition sent (c : completion) : list request :=
  match c with Normal _ _ reqs => reqs | Throw _ _ => [] end.

(** The keys of the object literals given to [setConfig]. *)
Definition configKeys : list string :=
  [ "deviceMode"; "streamingProtocol"; "modulation"; "fc"; "fs"; "rfg"; "ifg";
    "bbg"; "filePath" ].

(** *** Handlers that wait for the back end

    [handleSubmit], [handleCheckConnection] and [handleSendConfig] are
    [async]: each runs up to its [await fetch], where the state it has set
    is committed and the form stays usable, and goes on when the reply
    arrives, in whatever state the component then is.  Nothing is written
    between [await fetch] and the [await] on the body of the reply, so the
    two are taken as one; what the handler writes afterwards are values
    fixed by the reply, not functions of the previous state. *)

(** The part of a handler that is left to run after its [await]. *)
Inductive continuation :=
| AfterSave
| AfterPort.

(** The status that the reply to a save request leaves. *)
Definition savedStatus (r : response) : statusMessage :=
  match r with
  | HttpOk data =>
      {| type := "success";
         message := "Configuration saved successfully! Files: "
                    +:+ show data "bin_file" +:+ ", " +:+ show data "txt_file" |}
  | HttpError err =>
      {| type := "error";
         message := orElse err "error" "Failed to save configuration" |}
  | NetworkFailure m => {| type := "error"; message := "Network error: " +:+ m |}
  end.

(** An event, handled up to the first [await]: the state then committed,
    the request issued and the continuation left waiting, if any.  A blur
    leaves the state as it is, thrown error or not. *)
Definition begin (ev : event) (st : state)
  : state * option (request * continuation) :=
  match ev with
  | Submit =>
      let '(valid, st) := validateAll st in
      if negb valid then
        (setStatus (Some {| type := "error";
            message := "Please fix validation errors before saving" |}) st, None)
      else
        let st := setStatus None (setIsSubmitting true st) in
        (st, Some ({| url := "/api/config"; body := config st |}, AfterSave))
  | Change field v => (updateConfig field (VString v) st, None)
  | Blur _ => (st, None)
  | FileChosen file => (handleFileSelect file st, None)
  | ResetClicked => (resetToDefaults st, None)
  | CheckConnectionClicked =>
      if negb (truthy (prop (config st) "port")) then
        (setStatus (Some {| type := "error";
            message := "Please enter a Serial Port first" |}) st, None)
      else
        (setStatus (Some {| type := "info"; message := "Checking connection..." |}) st,
         Some (portRequest "/api/connection" st, AfterPort))
  | SendClicked =>
      if negb (truthy (prop (config st) "port")) then
        (setStatus (Some {| type := "error";
            message := "Please enter a Serial Port" |}) st, None)
      else
        (setStatus (Some {| type := "info"; message := "Sending configuration..." |}) st,
         Some (portRequest "/api/send" st, AfterPort))
  end.

(** A continuation that gets its reply, in the state of that moment. *)
Definition resume (k : continuation) (r : response) (st : state) : state :=
  match k with
  | AfterSave => setIsSubmitting false (setStatus (Some (savedStatus r)) st)
  | AfterPort => setStatus (Some (replyStatus r)) st
  end.

(** The component with the continuations that wait for a reply, in the
    order in which their requests were issued. *)
Record live := { now : state; awaiting : list continuation }.

(** What can happen next: the user raises an event, or the reply to the
    [i]-th request that is still open arrives. *)
Inductive occurrence :=
| Fired (ev : event)
| Replied (i : nat) (r : response).

Definition occur (o : occurrence) (l : live) : live :=
  match o with
  | Fired ev =>
      let '(st, started) := begin ev (now l) in
      {| now := st;
         awaiting := awaiting l ++ match started with
                                   | Some (_, k) => [k]
                                   | None => []
                                   end |}
  | Replied i r =>
      match awaiting l !! i with
      | Some k => {| now := resume k r (now l); awaiting := delete i (awaiting l) |}
      | None => l
      end
  end.

(** The component after a sequence of occurrences. *)
Definition unfolding (os : list occurrence) (l : live) : live :=
  fold_left (fun l o => occur o l) os l.

Definition initialLive : live := {| now := initialState; awaiting := [] |}.

(** What holds of the component at every moment: the submitting flag is up
    only while a save waits for its reply, every error sits under a ranged
    field and spells out the range of that field, and the configuration
    has all its keys, [port] possibly excepted. *)
Definition wellKept (l : live) : Prop :=
  (isSubmitting (now l) = true -> AfterSave ∈ awaiting l) /\
  (forall f m, errors (now l) !! f = Some m ->
     exists r, get ranges f = Some r /\ m = "Must be between " +:+ label r) /\
  (forall k, k ∈ configKeys -> is_Some (config (now l) !! k)).

End AppRun.

(** ** Runs of the wizard step [RFConfiguration] *)

Module RFRun.
Import JS RFConfiguration.

(** The [name]s of the five text inputs. *)
Definition inputs : list string := ["fc"; "fs"; "rfg"; "ifg"; "bbg"].

Definition modulations : list string := ["QPSK"; "BPSK"; "FSK"].

(** The events of the step.  A text input is controlled by [formData], so
    the [value] of a blur event is the text that [formData] holds. *)
Inductive event :=
| Change (name value : string)
| Blur (name : string)
| SelectModulation (m : string)
| Submit.

Definition dispatch (ev : event) (st : state) : state * option (gmap string value) :=
  match ev with
  | Change name value => (handleChange name value st, None)
  | Blur name => (handleBlur name (field (formData st) name) st, None)
  | SelectModulation m =>
      ({| formData := <["modulation" := m]> (formData st);
          errors := errors st; touched := touched st |}, None)
  | Submit => handleSubmit st
  end.

(** The events that the rendered form can raise. *)
Definition raisable (ev : event) : Prop :=
  match ev with
  | Change name _ | Blur name => name ∈ inputs
  | SelectModulation m => m ∈ modulations
  | Submit => True
  end.

Definition after (evs : list event) (st : state) : state :=
  fold_left (fun st ev => fst (dispatch ev st)) evs st.

(** [errors[name]], where a missing entry and [null] both mean no error. *)
Definition errorOf (st : state) (name : string) : option string :=
  match errors st !! name with
  | Some e => e
  | None => None
  end.

(** What holds of the state between two events: only inputs are touched,
    only touched fields have an entry in [errors], and the entry of a
    touched field is the verdict on the text the field holds now. *)
Definition consistent (st : state) : Prop :=
  (forall name, touched st !! name = Some true -> name ∈ inputs) /\
  (forall name, is_Some (errors st !! name) -> touched st !! name = Some true) /\
  (forall name, touched st !! name = Some true ->
     errorOf st name = validateField name (field (formData st) name)).

Definition getInputClassName (fieldName : string) (st : state) : string :=
  if negb (default false (touched st !! fieldName)) then "input-field"
  else
    match errors st !! fieldName with
    | Some (Some m) =>
        if String.eqb m "" then "input-field success" else "input-field error"
    | _ => "input-field success"
    end.

End RFRun.

(** ** Runs of the wizard step [StreamingProtocolSelector] *)

Module SelectorRun.
Import StreamingProtocolSelector.

Inductive event :=
| CardClicked (protocolId : string)
| FileChanged (chosen : option string).

Definition dispatch (ev : event) (st : state) : state * list selection :=
  match ev with
  | CardClicked id => (st, handleProtocolSelect id)
  | FileChanged chosen => handleFileChange chosen st
  end.

(** The state after a sequence of events and the calls of [onSelect] made
    on the way, in order. *)
Fixpoint run (evs : list event) (st : state) : state * list selection :=
  match evs with
  | [] => (st, [])
  | ev :: rest =>
      let '(st1, out1) := dispatch ev st in
      let '(st2, out2) := run rest st1 in
      (st2, out1 ++ out2)
  end.

End SelectorRun.

(** ** The summary [ConfigurationDisplay] *)

Module ConfigurationDisplay.
Import JS.

(** [x.toFixed(f)]: the integer nearest to [x * 10^f], the larger one on a
    tie, written with [f] digits after the point; Numbers from [1e21] on
    and the non-finite ones are written as [String(x)] writes them. *)
Definition toFixed (x : number) (f : nat) : string :=
  match x with
  | Fin q =>
      if Qle_bool (inject_Z (10 ^ 21)) (Qabs q) then numberToString x
      else
        let scale := 10 ^ Z.of_nat f in
        let n := Qfloor (Qabs q * inject_Z scale + (1 # 2)) in
        (if Qnum q <? 0 then "-" else "")
        +:+ integerNumeral (n / scale)
        +:+ (match f with
             | O => ""
             | S _ => "." +:+ numeral (digitsOf f n)
             end)
  | _ => numberToString x
  end.

Definition formatFrequency (value : number) : string :=
  if ge value (lit 1000000000) then toFixed (quot value 1000000000) 3 +:+ " GHz"
  else if ge value (lit 1000000) then toFixed (quot value 1000000) 3 +:+ " MHz"
  else if ge value (lit 1000) then toFixed (quot value 1000) 3 +:+ " kHz"
  else numberToString value +:+ " Hz".

End ConfigurationDisplay.

(** * Properties *)

(** ** Integers and numerals under [parseFloat] *)

Module JSFacts.
Import JS Spec.

Lemma rne_one (n : Z) : rne n 1 = n.
Proof.
  unfold rne. rewrite Z.div_1_r, Z.mod_1_r. reflexivity.
Qed.

Lemma rne_ge (n d : Z) : n / d <= rne n d.
Proof.
  unfold rne. destruct (2 * (n mod d) ?= d); [destruct (Z.even (n / d))| |]; lia.
Qed.

Lemma pow2_nonneg (e : Z) : 0 <= e -> pow2 e = 2 ^ e.
Proof. intros H. unfold pow2. rewrite Z.max_r by lia. reflexivity. Qed.

Lemma pow2_nonpos (e : Z) : e <= 0 -> pow2 e = 1.
Proof. intros H. unfold pow2. rewrite Z.max_l by lia. reflexivity. Qed.

Lemma binade_int (m : Z) : 0 < m -> binade m 1 = Z.log2 m.
Proof.
  intros Hm. unfold binade. change (Z.log2 1) with 0. rewrite Z.sub_0_r.
  pose proof (Z.log2_nonneg m) as Hl.
  rewrite pow2_nonneg, pow2_nonpos by lia.
  destruct (Z.log2_spec m Hm) as [Hlo _].
  destruct (Z.leb_spec (1 * 2 ^ Z.log2 m) (m * 1)); [reflexivity | lia].
Qed.

Lemma Qred_inject_Z (m : Z) : Qred (inject_Z m) = inject_Z m.
Proof.
  apply Qred_iff. simpl. apply Z.gcd_1_r.
Qed.

(** An integer below [2^53] is a Number: rounding leaves it as it is. *)
Lemma round_pos_small (m : Z) :
  0 < m < 2 ^ 53 -> round_pos m 1 = lit m.
Proof.
  intros [Hm Hlt]. unfold round_pos. rewrite binade_int by assumption.
  pose proof (Z.log2_nonneg m) as Hl.
  assert (Z.log2 m < 53) as Hl53 by (apply Z.log2_lt_pow2; assumption).
  rewrite Z.max_l by lia.
  rewrite (pow2_nonpos (Z.log2 m - 52)) by lia.
  rewrite (pow2_nonneg (- (Z.log2 m - 52))) by lia.
  set (P := 2 ^ (- (Z.log2 m - 52))).
  assert (0 < P) as HP by (apply Z.pow_pos_nonneg; lia).
  rewrite Z.mul_1_r, rne_one.
  assert (m < 2 ^ 1024) as Hbig.
  { eapply Z.lt_trans; [exact Hlt|]. apply Z.pow_lt_mono_r; lia. }
  destruct (Z.leb_spec (2 ^ 1024 * P) (m * P)) as [Hle | _]; [nia |].
  unfold lit. f_equal. rewrite <- (Qred_inject_Z m).
  apply Qred_complete. unfold Qeq. simpl.
  rewrite Z2Pos.id by assumption. lia.
Qed.

(** An integer from [2^53] on rounds to a Number that is no smaller than
    [2^53], or overflows. *)
Lemma round_pos_large (m : Z) :
  2 ^ 53 <= m ->
  round_pos m 1 = Inf false \/
  exists q, round_pos m 1 = Fin q /\ (inject_Z (2 ^ 53) <= q)%Q.
Proof.
  intros Hm. assert (0 < m) as Hpos by (pose proof (Z.pow_pos_nonneg 2 53); lia).
  unfold round_pos. rewrite binade_int by assumption.
  assert (53 <= Z.log2 m) as Hl by (apply Z.log2_le_pow2; assumption).
  rewrite Z.max_l by lia.
  rewrite (pow2_nonneg (Z.log2 m - 52)) by lia.
  rewrite (pow2_nonpos (- (Z.log2 m - 52))) by lia.
  set (P := 2 ^ (Z.log2 m - 52)).
  assert (0 < P) as HP by (apply Z.pow_pos_nonneg; lia).
  rewrite !Z.mul_1_r, Z.mul_1_l.
  destruct (Z.leb_spec (2 ^ 1024) (rne m P * P)); [left; reflexivity | right].
  eexists. split; [reflexivity |].
  rewrite Qred_correct. unfold Qle. simpl.
  pose proof (rne_ge m P) as Hk.
  assert (2 ^ 52 <= m / P) as Hdiv.
  { apply Z.div_le_lower_bound; [assumption |].
    destruct (Z.log2_spec m Hpos) as [Hlo _].
    replace (Z.log2 m) with (52 + (Z.log2 m - 52)) in Hlo by lia.
    rewrite Z.pow_add_r in Hlo by lia. fold P in Hlo. lia. }
  assert (2 <= P).
  { unfold P. change 2 with (2 ^ 1) at 1. apply Z.pow_le_mono_r; lia. }
  change (2 ^ 53) with (2 ^ 52 * 2). nia.
Qed.

Lemma round_ratio_reads (n : Z) : reads (round_ratio n 1) n.
Proof.
  unfold round_ratio. destruct (Z.compare_spec n 0) as [-> | Hneg | Hpos].
  - left. reflexivity.
  - destruct (Z_lt_le_dec (- n) (2 ^ 53)) as [Hs | Hb].
    + left. rewrite round_pos_small by lia. unfold negate, lit. f_equal.
      change (- inject_Z (- n))%Q with (inject_Z (- - n)).
      rewrite Z.opp_involutive. apply Qred_inject_Z.
    + right; right. split; [lia |].
      destruct (round_pos_large (- n) Hb) as [-> | (q & -> & Hq)];
        [left; reflexivity | right].
      eexists. split; [reflexivity |]. rewrite Qred_correct.
      change (inject_Z (- 2 ^ 53)) with (- inject_Z (2 ^ 53))%Q.
      apply Qopp_le_compat. exact Hq.
  - destruct (Z_lt_le_dec n (2 ^ 53)) as [Hs | Hb].
    + left. apply round_pos_small. lia.
    + right; left. split; [lia |]. apply round_pos_large. exact Hb.
Qed.

Lemma Qle_bool_inject (a b : Z) : Qle_bool (inject_Z a) (inject_Z b) = (a <=? b).
Proof.
  unfold Qle_bool. simpl. rewrite !Z.mul_1_r. reflexivity.
Qed.

Section Comparisons.
Variables (x : number) (n a : Z).
Hypothesis Hx : reads x n.
Hypothesis Ha : - 2 ^ 53 < a < 2 ^ 53.

Lemma reads_not_NaN : isNaN x = false.
Proof.
  destruct Hx as [-> | [[_ [-> | (q & -> & _)]] | [_ [-> | (q & -> & _)]]]];
    reflexivity.
Qed.

Lemma reads_le : le x (lit a) = (n <=? a).
Proof.
  destruct Hx as [-> | [[Hn [-> | (q & -> & Hq)]] | [Hn [-> | (q & -> & Hq)]]]];
    simpl.
  - apply Qle_bool_inject.
  - symmetry. apply Z.leb_gt. lia.
  - transitivity false; [| symmetry; apply Z.leb_gt; lia].
    apply not_true_is_false. intros H. apply Qle_bool_iff in H.
    pose proof (Qle_trans _ _ _ Hq H) as Hc. unfold Qle in Hc. simpl in Hc. lia.
  - symmetry. apply Z.leb_le. lia.
  - transitivity true; [| symmetry; apply Z.leb_le; lia].
    apply Qle_bool_iff. eapply Qle_trans; [exact Hq |].
    unfold Qle. simpl. lia.
Qed.

Lemma reads_ge : ge x (lit a) = (a <=? n).
Proof.
  unfold ge.
  destruct Hx as [-> | [[Hn [-> | (q & -> & Hq)]] | [Hn [-> | (q & -> & Hq)]]]];
    simpl.
  - apply Qle_bool_inject.
  - symmetry. apply Z.leb_le. lia.
  - transitivity true; [| symmetry; apply Z.leb_le; lia].
    apply Qle_bool_iff. eapply Qle_trans; [| exact Hq].
    unfold Qle. simpl. lia.
  - symmetry. apply Z.leb_gt. lia.
  - transitivity false; [| symmetry; apply Z.leb_gt; lia].
    apply not_true_is_false. intros H. apply Qle_bool_iff in H.
    pose proof (Qle_trans _ _ _ H Hq) as Hc. unfold Qle in Hc. simpl in Hc. lia.
Qed.

Lemma reads_lt : lt x (lit a) = (n <? a).
Proof.
  rewrite Z.ltb_antisym, <- reads_ge. pose proof reads_not_NaN as Hn.
  unfold ge, lit. destruct x as [| [] | q]; try reflexivity. discriminate Hn.
Qed.

Lemma reads_gt : gt x (lit a) = (a <? n).
Proof.
  rewrite Z.ltb_antisym, <- reads_le. pose proof reads_not_NaN as Hn.
  unfold gt, lit. destruct x as [| [] | q]; try reflexivity. discriminate Hn.
Qed.
End Comparisons.

(** *** Numerals *)

Lemma digit_cases (d : Z) :
  Spec.isDecimalDigit d ->
  d = 0 \/ d = 1 \/ d = 2 \/ d = 3 \/ d = 4 \/ d = 5 \/ d = 6 \/ d = 7 \/ d = 8 \/ d = 9.
Proof. unfold Spec.isDecimalDigit. lia. Qed.

Ltac each_digit H :=
  apply digit_cases in H;
  destruct H as [-> | [-> | [-> | [-> | [-> | [-> | [-> | [-> | [-> | ->]]]]]]]]].

Lemma takeDigits_numeral (ds : list Z) :
  Forall Spec.isDecimalDigit ds -> takeDigits (numeral ds) = (ds, EmptyString).
Proof.
  induction 1 as [| d ds Hd _ IH]; [reflexivity |].
  change (numeral (d :: ds)) with (String (digitChar d) (numeral ds)).
  each_digit Hd; cbn [takeDigits]; rewrite IH; reflexivity.
Qed.

Lemma digitsValue_nonneg_from (ds : list Z) (acc : Z) :
  Forall Spec.isDecimalDigit ds -> 0 <= acc ->
  0 <= fold_left (fun acc d => 10 * acc + d) ds acc.
Proof.
  intros H. revert acc. induction H as [| d ds Hd _ IH]; intros acc Hacc; simpl.
  - exact Hacc.
  - apply IH. unfold Spec.isDecimalDigit in Hd. lia.
Qed.

Lemma digitsValue_nonneg (ds : list Z) :
  Forall Spec.isDecimalDigit ds -> 0 <= digitsValue ds.
Proof. intros H. apply digitsValue_nonneg_from; [exact H | lia]. Qed.

Lemma parseUnsigned_numeral (ds : list Z) :
  ds <> [] -> Forall Spec.isDecimalDigit ds ->
  parseUnsigned (numeral ds) = round_ratio (digitsValue ds) 1.
Proof.
  intros Hne Hds. unfold parseUnsigned.
  rewrite (takeDigits_numeral ds Hds).
  destruct ds as [| d ds]; [contradiction |].
  inversion Hds as [| ? ? Hd Hrest]; subst.
  assert (startsWith "Infinity" (numeral (d :: ds)) = false) as ->.
  { change (numeral (d :: ds)) with (String (digitChar d) (numeral ds)).
    each_digit Hd; reflexivity. }
  cbn [exponentPart]. unfold decimalValue. simpl (0 <=? 0).
  cbn iota. rewrite Z.pow_0_r, Z.mul_1_r. reflexivity.
Qed.

Lemma trimStart_numeral (ds : list Z) :
  Forall Spec.isDecimalDigit ds -> trimStart (numeral ds) = numeral ds.
Proof.
  intros Hds. unfold trimStart. destruct Hds as [| d ds Hd _]; [reflexivity |].
  change (numeral (d :: ds)) with (String (digitChar d) (numeral ds)).
  each_digit Hd; reflexivity.
Qed.

Lemma parseFloatString_numeral (ds : list Z) :
  ds <> [] -> Forall Spec.isDecimalDigit ds ->
  parseFloatString (numeral ds) = round_ratio (digitsValue ds) 1.
Proof.
  intros Hne Hds. unfold parseFloatString. rewrite trimStart_numeral by assumption.
  rewrite <- parseUnsigned_numeral by assumption.
  destruct ds as [| d ds]; [contradiction |].
  inversion Hds as [| ? ? Hd Hrest]; subst.
  change (numeral (d :: ds)) with (String (digitChar d) (numeral ds)).
  each_digit Hd; reflexivity.
Qed.

Lemma negate_reads (x : number) (n : Z) : reads x n -> reads (negate x) (- n).
Proof.
  intros [-> | [[Hn [-> | (q & -> & Hq)]] | [Hn [-> | (q & -> & Hq)]]]].
  - left. unfold negate, lit. f_equal.
    change (- inject_Z n)%Q with (inject_Z (- n)). apply Qred_inject_Z.
  - right; right. split; [lia |]. left. reflexivity.
  - right; right. split; [lia |]. right. eexists. split; [reflexivity |].
    rewrite Qred_correct. change (inject_Z (- 2 ^ 53)) with (- inject_Z (2 ^ 53))%Q.
    apply Qopp_le_compat. exact Hq.
  - right; left. split; [lia |]. left. reflexivity.
  - right; left. split; [lia |]. right. eexists. split; [reflexivity |].
    rewrite Qred_correct. apply Qopp_le_compat in Hq.
    change (- inject_Z (- 2 ^ 53))%Q with (inject_Z (2 ^ 53)) in Hq. exact Hq.
Qed.

Lemma parseFloatString_negative (ds : list Z) :
  ds <> [] -> Forall Spec.isDecimalDigit ds ->
  parseFloatString (String "-" (numeral ds)) = negate (round_ratio (digitsValue ds) 1).
Proof.
  intros Hne Hds.
  change (parseFloatString (String "-" (numeral ds)))
    with (negate (parseUnsigned (numeral ds))).
  rewrite parseUnsigned_numeral by assumption. reflexivity.
Qed.

(** What [parseFloat] makes of a value that denotes an integer. *)
Lemma parseFloat_denotes (v : value) (n : Z) :
  Spec.denotes v n -> reads (parseFloat v) n.
Proof.
  intros [m | ds Hne Hds | ds Hne Hds]; simpl parseFloat.
  - left. reflexivity.
  - rewrite parseFloatString_numeral by assumption. apply round_ratio_reads.
  - rewrite parseFloatString_negative by assumption.
    apply negate_reads, round_ratio_reads.
Qed.

(** *** Blanks *)

Lemma length_blanks (k : nat) : String.length (blanks k) = k.
Proof. induction k as [| k IH]; [reflexivity |]. simpl. rewrite IH. reflexivity. Qed.

Lemma trimStartFuel_blanks (k fuel : nat) :
  (k <= fuel)%nat -> trimStartFuel fuel (blanks k) = "".
Proof.
  revert fuel. induction k as [| k IH]; intros fuel Hk.
  - destruct fuel; reflexivity.
  - destruct fuel as [| fuel]; [lia |].
    change (trimStartFuel (S fuel) (blanks (S k))) with (trimStartFuel fuel (blanks k)).
    apply IH. lia.
Qed.

(** A text of blanks only has no numeric prefix. *)
Lemma parseFloatString_blanks (k : nat) :
  isNaN (parseFloatString (blanks k)) = true.
Proof.
  unfold parseFloatString, trimStart.
  rewrite trimStartFuel_blanks by (rewrite length_blanks; lia). reflexivity.
Qed.

End JSFacts.

(** ** Objects built key by key *)

Module ObjectFacts.
Import App.

Lemma get_cons {A} (k : string) (r : A) (l : list (string * A)) (f : string) :
  get ((k, r) :: l) f = if String.eqb k f then Some r else get l f.
Proof.
  unfold get. simpl. destruct (String.eqb k f); reflexivity.
Qed.

Lemma get_absent {A} (l : list (string * A)) (f : string) :
  f ∉ keys l -> get l f = None.
Proof.
  induction l as [| [k r] l IH]; intros Hnot; [reflexivity |].
  rewrite get_cons. destruct (String.eqb_spec k f) as [-> | Hne].
  - exfalso. apply Hnot. simpl. left.
  - apply IH. intros Hin. apply Hnot. simpl. right. exact Hin.
Qed.

Section Fold.
Context {A B : Type}.
Variable msg : string -> A -> option B.
Variable step : gmap string B -> string * A -> gmap string B.
Hypothesis step_spec : forall acc k r,
  step acc (k, r) = match msg k r with Some m => <[k := m]> acc | None => acc end.

(** An object filled by a loop over the entries of [l] holds, under a key
    of [l], what the loop stored for it, and nothing new elsewhere. *)
Lemma fold_lookup (l : list (string * A)) (acc : gmap string B) (f : string) :
  NoDup (keys l) ->
  fold_left step l acc !! f =
    match get l f with
    | Some r => match msg f r with Some m => Some m | None => acc !! f end
    | None => acc !! f
    end.
Proof.
  revert acc. induction l as [| [k r] l IH]; intros acc Hnd; [reflexivity |].
  apply NoDup_cons in Hnd as [Hk Hnd]. simpl fold_left.
  rewrite IH by assumption. rewrite get_cons, step_spec.
  destruct (String.eqb_spec k f) as [-> | Hne].
  - rewrite (get_absent l f Hk).
    destruct (msg f r); [apply lookup_insert_eq | reflexivity].
  - assert ((match msg k r with Some m => <[k := m]> acc | None => acc end) !! f
            = acc !! f) as ->.
    { destruct (msg k r); [apply lookup_insert_ne; assumption | reflexivity]. }
    reflexivity.
Qed.
End Fold.

End ObjectFacts.

(** ** The validators *)

Module ValidationFacts.
Import JS Spec JSFacts.

Lemma ranges_NoDup : NoDup (App.keys App.ranges).
Proof. apply (bool_decide_unpack _). vm_compute. exact I. Qed.

Lemma rules_NoDup : NoDup (App.keys RFConfiguration.validationRules).
Proof. apply (bool_decide_unpack _). vm_compute. exact I. Qed.

(** The entry of [newErrors] for a field. *)
Lemma App_newErrors_lookup (c : gmap string value) (f : string) :
  App.newErrors c !! f =
    match App.get App.ranges f with
    | Some r => if App.validateField f (App.prop c f) then None
                else Some ("Must be between " +:+ App.label r)
    | None => None
    end.
Proof.
  unfold App.newErrors.
  rewrite (ObjectFacts.fold_lookup
    (fun k r => if negb (App.validateField k (App.prop c k))
                then Some ("Must be between " +:+ App.label r) else None)).
  - destruct (App.get App.ranges f); [| apply lookup_empty].
    destruct (App.validateField f (App.prop c f)); simpl; [apply lookup_empty | reflexivity].
  - intros acc k r. destruct (negb _); reflexivity.
  - exact ranges_NoDup.
Qed.

Lemma RF_newErrors_lookup (d : gmap string string) (f : string) :
  RFConfiguration.newErrors d !! f =
    match App.get RFConfiguration.validationRules f with
    | Some _ =>
        match RFConfiguration.validateField f (RFConfiguration.field d f) with
        | Some m => if String.eqb m "" then None else Some (Some m)
        | None => None
        end
    | None => None
    end.
Proof.
  unfold RFConfiguration.newErrors.
  rewrite (ObjectFacts.fold_lookup
    (fun k (_ : RFConfiguration.rule) =>
       match RFConfiguration.validateField k (RFConfiguration.field d k) with
       | Some m => if String.eqb m "" then None else Some (Some m)
       | None => None
       end)).
  - destruct (App.get RFConfiguration.validationRules f); [| apply lookup_empty].
    destruct (RFConfiguration.validateField f _) as [m |]; [| apply lookup_empty].
    destruct (String.eqb m ""); [apply lookup_empty | reflexivity].
  - intros acc k r.
    destruct (RFConfiguration.validateField k _) as [m |]; [| reflexivity].
    destruct (String.eqb m ""); reflexivity.
  - exact rules_NoDup.
Qed.

(** A field with a domain is one of the five numeric fields. *)
Lemma domain_cases (f : string) (lo hi : Z) :
  Spec.domain f = Some (lo, hi) ->
  (f = "fc" /\ lo = 1000000 /\ hi = 6000000000) \/
  (f = "fs" /\ lo = 1000000 /\ hi = 20000000) \/
  (f = "rfg" /\ lo = 0 /\ hi = 47) \/
  (f = "ifg" /\ lo = 0 /\ hi = 40) \/
  (f = "bbg" /\ lo = 0 /\ hi = 62).
Proof.
  unfold Spec.domain.
  destruct (String.eqb_spec f "fc") as [-> | _]; [intros [= <- <-]; tauto |].
  destruct (String.eqb_spec f "fs") as [-> | _]; [intros [= <- <-]; tauto |].
  destruct (String.eqb_spec f "rfg") as [-> | _]; [intros [= <- <-]; tauto |].
  destruct (String.eqb_spec f "ifg") as [-> | _]; [intros [= <- <-]; tauto |].
  destruct (String.eqb_spec f "bbg") as [-> | _]; [intros [= <- <-]; tauto |].
  discriminate.
Qed.

Ltac bound := split; reflexivity.

(** [validateField] of the main form on a value that denotes [n]. *)
Lemma App_validateField_denotes (f : string) (lo hi : Z) (v : value) (n : Z) :
  Spec.domain f = Some (lo, hi) -> Spec.denotes v n ->
  App.validateField f v = (lo <=? n) && (n <=? hi).
Proof.
  intros Hdom Hv. apply parseFloat_denotes in Hv.
  apply domain_cases in Hdom.
  destruct Hdom as [(-> & -> & ->) | [(-> & -> & ->) | [(-> & -> & ->) |
                   [(-> & -> & ->) | (-> & -> & ->)]]]];
    unfold App.validateField; cbn [App.get App.ranges find fst snd String.eqb Ascii.eqb Bool.eqb fmap option_fmap option_map App.min App.max];
    rewrite (reads_not_NaN _ _ Hv), (reads_ge _ _ _ Hv), (reads_le _ _ _ Hv);
    first [reflexivity | bound].
Qed.

Lemma numeral_nonempty (ds : list Z) : ds <> [] -> String.eqb (numeral ds) "" = false.
Proof. destruct ds; [contradiction | reflexivity]. Qed.

(** A text that denotes an integer is not empty and reads as that integer. *)
Lemma text_denotes (s : string) (n : Z) :
  Spec.denotes (VString s) n ->
  String.eqb s "" = false /\ reads (parseFloatString s) n.
Proof.
  intros H. split; [| exact (parseFloat_denotes _ _ H)].
  inversion H; subst; [apply numeral_nonempty; assumption | reflexivity].
Qed.

(** [validateField] of the wizard on a text that denotes [n]. *)
Lemma RF_validateField_denotes (f : string) (lo hi : Z) (s : string) (n : Z) :
  Spec.domain f = Some (lo, hi) -> Spec.denotes (VString s) n ->
  RFConfiguration.validateField f s = None <-> lo <= n <= hi.
Proof.
  intros Hdom Hs. apply text_denotes in Hs as [Hne Hv].
  apply domain_cases in Hdom.
  destruct Hdom as [(-> & -> & ->) | [(-> & -> & ->) | [(-> & -> & ->) |
                   [(-> & -> & ->) | (-> & -> & ->)]]]];
    unfold RFConfiguration.validateField; rewrite Hne, (reads_not_NaN _ _ Hv);
    cbn [App.get RFConfiguration.validationRules find fst snd String.eqb Ascii.eqb
         Bool.eqb fmap option_fmap option_map RFConfiguration.min RFConfiguration.max];
    rewrite (reads_lt _ _ _ Hv), (reads_gt _ _ _ Hv) by bound;
    repeat match goal with
           | |- context [?a <? ?b] =>
               destruct (Z.ltb_spec a b); [split; [discriminate | lia] |]
           end;
    (split; [lia | reflexivity]).
Qed.

(** [validateAll] succeeds exactly when no field has an entry. *)
Lemma size_zero_iff {B} (e : gmap string B) :
  size e = 0%nat <-> forall f, e !! f = None.
Proof.
  rewrite map_size_empty_iff. split.
  - intros -> f. apply lookup_empty.
  - intros H. apply map_empty. exact H.
Qed.

End ValidationFacts.

(** ** Range validation *)

Import JS.

(** The boundary values of every domain, as numbers and as typed text. *)
Example validation_boundaries :
  map (App.validateField "fc")
      [VString "999999"; VString "1000000"; VString "6000000000"; VString "6000000001"]
    = [false; true; true; false] /\
  map (App.validateField "fs")
      [VNumber (lit 999999); VNumber (lit 1000000); VNumber (lit 20000000);
       VNumber (lit 20000001)]
    = [false; true; true; false] /\
  map (App.validateField "rfg") [VString "-1"; VString "0"; VString "47"; VString "48"]
    = [false; true; true; false] /\
  map (App.validateField "ifg") [VString "-1"; VString "0"; VString "40"; VString "41"]
    = [false; true; true; false] /\
  map (App.validateField "bbg") [VString "-1"; VString "0"; VString "62"; VString "63"]
    = [false; true; true; false] /\
  map (RFConfiguration.validateField "fc")
      ["999999"; "1000000"; "6000000000"; "6000000001"]
    = [Some "Value too low. Minimum: 1 MHz"; None; None;
       Some "Value too high. Maximum: 6 GHz"] /\
  map (RFConfiguration.validateField "fs") ["999999"; "20000000"; "20000001"]
    = [Some "Value too low. Minimum: 1 MHz"; None;
       Some "Value too high. Maximum: 20 MHz"] /\
  map (RFConfiguration.validateField "bbg") ["-1"; "0"; "62"; "63"]
    = [Some "Value too low. Minimum: 0 dB"; None; None;
       Some "Value too high. Maximum: 62 dB"].
Proof. vm_compute. repeat split. Qed.

Module DomainFacts.
Import Spec.

Lemma has_range (f : string) (lo hi : Z) :
  domain f = Some (lo, hi) ->
  is_Some (App.get App.ranges f) /\ is_Some (App.get RFConfiguration.validationRules f).
Proof.
  intros Hdom. apply ValidationFacts.domain_cases in Hdom.
  destruct Hdom as [(-> & _) | [(-> & _) | [(-> & _) | [(-> & _) | (-> & _)]]]];
    split; eexists; reflexivity.
Qed.

Lemma App_accepts_iff (f : string) (lo hi : Z) (v : value) (n : Z) :
  domain f = Some (lo, hi) -> denotes v n ->
  App.validateField f v = true <-> lo <= n <= hi.
Proof.
  intros Hdom Hv.
  rewrite (ValidationFacts.App_validateField_denotes f lo hi v n Hdom Hv).
  rewrite andb_true_iff, !Z.leb_le. tauto.
Qed.

(** A finite Number is accepted exactly when it lies between the bounds. *)
Lemma App_accepts_number_iff (f : string) (lo hi : Z) (q : Q) :
  domain f = Some (lo, hi) ->
  App.validateField f (VNumber (Fin q)) = true
  <-> (inject_Z lo <= q /\ q <= inject_Z hi)%Q.
Proof.
  intros Hdom. apply ValidationFacts.domain_cases in Hdom.
  destruct Hdom as [(-> & -> & ->) | [(-> & -> & ->) | [(-> & -> & ->) |
                   [(-> & -> & ->) | (-> & -> & ->)]]]];
    unfold App.validateField;
    cbn [App.get App.ranges find fst snd String.eqb Ascii.eqb Bool.eqb fmap
         option_fmap option_map App.min App.max parseFloat isNaN ge le lit];
    rewrite andb_true_iff, !Qle_bool_iff; reflexivity.
Qed.

(** The main form lists a field in [newErrors] exactly when its value is
    outside the domain. *)
Lemma App_error_iff (f : string) (lo hi : Z) (v : value) (n : Z)
  (c : gmap string value) :
  domain f = Some (lo, hi) -> denotes v n -> c !! f = Some v ->
  is_Some (App.newErrors c !! f) <-> ~ lo <= n <= hi.
Proof.
  intros Hdom Hv Hc. pose proof (App_accepts_iff f lo hi v n Hdom Hv) as Hacc.
  destruct (has_range f lo hi Hdom) as [[r Hr] _].
  rewrite ValidationFacts.App_newErrors_lookup, Hr.
  unfold App.prop. rewrite Hc. simpl.
  destruct (App.validateField f v) eqn:E.
  - split; [intros [x Hx]; discriminate | intros Hn; tauto].
  - split; [intros _ Hin; apply Hacc in Hin; discriminate | eauto].
Qed.

(** Every message of the wizard's validator is a non-empty text. *)
Lemma RF_message_nonempty (f s m : string) :
  RFConfiguration.validateField f s = Some m -> String.eqb m "" = false.
Proof.
  unfold RFConfiguration.validateField.
  repeat match goal with
         | |- context [if ?b then _ else _] => destruct b
         | |- context [match ?o with Some _ => _ | None => _ end] => destruct o
         end; intros [= <-] || discriminate; reflexivity.
Qed.

(** The wizard lists a field in [newErrors] exactly when its text is
    outside the domain. *)
Lemma RF_error_iff (f : string) (lo hi : Z) (s : string) (n : Z)
  (d : gmap string string) :
  domain f = Some (lo, hi) -> denotes (VString s) n -> d !! f = Some s ->
  is_Some (RFConfiguration.newErrors d !! f) <-> ~ lo <= n <= hi.
Proof.
  intros Hdom Hv Hd.
  pose proof (ValidationFacts.RF_validateField_denotes f lo hi s n Hdom Hv) as Hrf.
  destruct (has_range f lo hi Hdom) as [_ [r Hr]].
  rewrite ValidationFacts.RF_newErrors_lookup, Hr.
  unfold RFConfiguration.field. rewrite Hd. simpl.
  destruct (RFConfiguration.validateField f s) as [m |] eqn:E.
  - rewrite (RF_message_nonempty f s m E).
    split; [intros _ Hin; apply Hrf in Hin; discriminate | eauto].
  - split; [intros [x Hx]; discriminate | intros Hn; tauto].
Qed.

End DomainFacts.

(** C1. For each numeric field, with the inclusive domain that the data
    model gives it, and for every value that denotes an integer (a Number,
    or a decimal numeral typed into the input): the validator of the main
    form accepts the value exactly when the integer lies in the domain, and
    so does the validator of the wizard; any finite Number is accepted
    exactly when it lies between the two bounds; a rejected value is
    reported by [validateAll] (and by the wizard's submit) under the name
    of the field, an accepted one is not. *)
Theorem C1_validators_accept_exactly_the_domain
  (f : string) (lo hi : Z) (v : value) (n : Z) :
  Spec.domain f = Some (lo, hi) ->
  Spec.denotes v n ->
  (App.validateField f v = true <-> lo <= n <= hi) /\
  (forall q : Q, App.validateField f (VNumber (Fin q)) = true
                 <-> (inject_Z lo <= q /\ q <= inject_Z hi)%Q) /\
  (forall c : gmap string value, c !! f = Some v ->
     (is_Some (App.newErrors c !! f) <-> ~ lo <= n <= hi)) /\
  (forall s : string, v = VString s ->
     (RFConfiguration.validateField f s = None <-> lo <= n <= hi) /\
     (forall d : gmap string string, d !! f = Some s ->
        (is_Some (RFConfiguration.newErrors d !! f) <-> ~ lo <= n <= hi))).
Proof.
  intros Hdom Hv. split; [| split; [| split]].
  - exact (DomainFacts.App_accepts_iff f lo hi v n Hdom Hv).
  - intros q. exact (DomainFacts.App_accepts_number_iff f lo hi q Hdom).
  - intros c Hc. exact (DomainFacts.App_error_iff f lo hi v n c Hdom Hv Hc).
  - intros s ->. split.
    + exact (ValidationFacts.RF_validateField_denotes f lo hi s n Hdom Hv).
    + intros d Hd. exact (DomainFacts.RF_error_iff f lo hi s n d Hdom Hv Hd).
Qed.

Lemma C1_witness :
  (App.validateField "fc" (VString "6000000001") = true
     <-> 1000000 <= 6000000001 <= 6000000000) /\
  (is_Some (App.newErrors (<["fc" := VString "6000000001"]> App.initialConfig) !! "fc")
     <-> ~ 1000000 <= 6000000001 <= 6000000000) /\
  (RFConfiguration.validateField "fc" "6000000001" = None
     <-> 1000000 <= 6000000001 <= 6000000000).
Proof.
  destruct (C1_validators_accept_exactly_the_domain
              "fc" 1000000 6000000000 (VString "6000000001") 6000000001
              eq_refl
              (Spec.denotes_numeral [6; 0; 0; 0; 0; 0; 0; 0; 0; 1]
                 ltac:(discriminate)
                 ltac:(repeat constructor; discriminate)))
    as (H1 & _ & H2 & H3).
  split; [exact H1 | split].
  - apply H2. reflexivity.
  - apply (H3 _ eq_refl).
Defined.

(** C9. The validators read their input with [parseFloat], so they accept
    inputs that are not unsigned-integer numerals: the fractional gain 14.5
    and the text 915000000abc, whose numeric prefix is in range, are both
    classified as valid by the main form and by the wizard, and the wizard
    hands the fraction on to [onSubmit]. *)
Theorem C9_validators_accept_non_integer_input :
  Spec.isUnsignedNumeral "14.5" = false /\
  Spec.isUnsignedNumeral "915000000abc" = false /\
  parseFloat (VString "14.5") = Fin (29 # 2) /\
  parseFloat (VString "915000000abc") = lit 915000000 /\
  App.validateField "rfg" (VString "14.5") = true /\
  App.validateField "fc" (VString "915000000abc") = true /\
  RFConfiguration.validateField "rfg" "14.5" = None /\
  RFConfiguration.validateField "fc" "915000000abc" = None /\
  (let d := <["rfg" := "14.5"]> (<["fc" := "915000000abc"]> (<["fs" := "2000000"]>
            (<["ifg" := "20"]> (<["bbg" := "30"]>
               (RFConfiguration.formData RFConfiguration.initialState))))) in
   snd (RFConfiguration.handleSubmit
          {| RFConfiguration.formData := d; RFConfiguration.errors := ∅;
             RFConfiguration.touched := ∅ |})
     = Some (RFConfiguration.submission d) /\
   RFConfiguration.submission d !! "rfg" = Some (VNumber (Fin (29 # 2))) /\
   RFConfiguration.submission d !! "fc" = Some (VNumber (lit 915000000))).
Proof. vm_compute. repeat split. Qed.

(** ** Saving *)

Module SubmitFacts.

Lemma App_handleSubmit_invalid fetch (st : App.state) (f : string) :
  is_Some (App.newErrors (App.config st) !! f) ->
  App.handleSubmit fetch st
    = App.Normal VUndefined
        (App.setStatus
           (Some {| App.type := "error";
                    App.message := "Please fix validation errors before saving" |})
           (App.setErrors (App.newErrors (App.config st)) st)) [].
Proof.
  intros [m Hm]. unfold App.handleSubmit, App.validateAll.
  rewrite bool_decide_eq_false_2; [reflexivity |].
  intros Hz. rewrite ValidationFacts.size_zero_iff in Hz.
  rewrite Hz in Hm. discriminate.
Qed.

Lemma App_handleSubmit_valid fetch (st : App.state) :
  (forall f, App.newErrors (App.config st) !! f = None) ->
  exists st', App.handleSubmit fetch st
    = App.Normal VUndefined st'
        [ {| App.url := "/api/config"; App.body := App.config st |} ] /\
    App.config st' = App.config st.
Proof.
  intros Hz. apply ValidationFacts.size_zero_iff in Hz.
  unfold App.handleSubmit, App.validateAll.
  rewrite bool_decide_eq_true_2 by assumption. simpl.
  destruct (fetch _); eexists; split; reflexivity.
Qed.

Lemma RF_handleSubmit_invalid (st : RFConfiguration.state) (f : string) :
  is_Some (RFConfiguration.newErrors (RFConfiguration.formData st) !! f) ->
  RFConfiguration.handleSubmit st
    = ({| RFConfiguration.formData := RFConfiguration.formData st;
          RFConfiguration.errors := RFConfiguration.newErrors (RFConfiguration.formData st);
          RFConfiguration.touched := RFConfiguration.allTouched |}, None).
Proof.
  intros [m Hm]. unfold RFConfiguration.handleSubmit.
  rewrite bool_decide_eq_true_2; [reflexivity |].
  destruct (size _) eqn:E; [| lia].
  rewrite ValidationFacts.size_zero_iff in E. rewrite E in Hm. discriminate.
Qed.

End SubmitFacts.

(** C4. When a numeric field of the configuration denotes an integer
    outside its domain, saving stops at validation, whatever the back end
    would answer: the handler issues no request, the status is the
    validation error, the field is listed in [errors], and the stored
    configuration is the one that was submitted, the offending value
    included (nothing is clamped).  The wizard's submit likewise keeps the
    form data as typed and does not call [onSubmit]. *)
Theorem C4_out_of_range_is_rejected_and_never_clamped
  (fetch : App.request -> App.response) (st : App.state)
  (f : string) (lo hi : Z) (v : value) (n : Z) :
  Spec.domain f = Some (lo, hi) ->
  App.config st !! f = Some v ->
  Spec.denotes v n ->
  ~ lo <= n <= hi ->
  (exists st',
      App.handleSubmit fetch st = App.Normal VUndefined st' [] /\
      App.status st'
        = Some {| App.type := "error";
                  App.message := "Please fix validation errors before saving" |} /\
      is_Some (App.errors st' !! f) /\
      App.config st' = App.config st /\
      App.config st' !! f = Some v) /\
  (forall (rst : RFConfiguration.state) (s : string),
      v = VString s -> RFConfiguration.formData rst !! f = Some s ->
      exists rst',
        RFConfiguration.handleSubmit rst = (rst', None) /\
        is_Some (RFConfiguration.errors rst' !! f) /\
        RFConfiguration.formData rst' = RFConfiguration.formData rst).
Proof.
  intros Hdom Hc Hv Hout. split.
  - apply (DomainFacts.App_error_iff f lo hi v n _ Hdom Hv Hc) in Hout.
    rewrite (SubmitFacts.App_handleSubmit_invalid fetch st f Hout).
    eexists. split; [reflexivity |]. simpl. repeat split; assumption.
  - intros rst s -> Hd.
    apply (DomainFacts.RF_error_iff f lo hi s n _ Hdom Hv Hd) in Hout.
    rewrite (SubmitFacts.RF_handleSubmit_invalid rst f Hout).
    eexists. split; [reflexivity |]. simpl. split; [assumption | reflexivity].
Qed.

Lemma C4_witness :
  let st := App.updateConfig "rfg" (VString "48") App.initialState in
  (exists st',
      App.handleSubmit (fun _ => App.HttpOk ∅) st = App.Normal VUndefined st' [] /\
      App.status st'
        = Some {| App.type := "error";
                  App.message := "Please fix validation errors before saving" |} /\
      is_Some (App.errors st' !! "rfg") /\
      App.config st' = App.config st /\
      App.config st' !! "rfg" = Some (VString "48")) /\
  (forall (rst : RFConfiguration.state) (s : string),
      VString "48" = VString s -> RFConfiguration.formData rst !! "rfg" = Some s ->
      exists rst',
        RFConfiguration.handleSubmit rst = (rst', None) /\
        is_Some (RFConfiguration.errors rst' !! "rfg") /\
        RFConfiguration.formData rst' = RFConfiguration.formData rst).
Proof.
  apply (C4_out_of_range_is_rejected_and_never_clamped
           (fun _ => App.HttpOk ∅)
           (App.updateConfig "rfg" (VString "48") App.initialState)
           "rfg" 0 47 (VString "48") 48).
  - reflexivity.
  - vm_compute. reflexivity.
  - exact (Spec.denotes_numeral [4; 8] ltac:(discriminate)
             ltac:(repeat constructor; discriminate)).
  - lia.
Defined.

(** ** Reporting violations *)

(** C5, as stated, fails: with the carrier frequency and the RF gain both
    out of range, the first violation is [fc], yet the errors that
    validation reports also hold the later violation [rfg], in the main
    form and in the wizard alike. *)
Lemma C5_counterexample :
  let c := <["rfg" := VString "100"]> (<["fc" := VString "0"]> App.initialConfig) in
  let d := <["rfg" := "100"]> (<["fc" := "0"]> (<["fs" := "2000000"]>
           (<["ifg" := "20"]> (<["bbg" := "30"]>
              (RFConfiguration.formData RFConfiguration.initialState))))) in
  Spec.firstViolation c = Some "fc" /\
  App.newErrors c !! "fc" = Some "Must be between 1 MHz - 6 GHz" /\
  App.newErrors c !! "rfg" = Some "Must be between 0-47 dB" /\
  size (App.newErrors c) = 2%nat /\
  RFConfiguration.newErrors d !! "fc" = Some (Some "Value too low. Minimum: 1 MHz") /\
  RFConfiguration.newErrors d !! "rfg" = Some (Some "Value too high. Maximum: 47 dB").
Proof. vm_compute. repeat split. Qed.

(** C5, amended.  Validation reports every violation, not the first one
    only: [newErrors] has an entry for a field exactly when the field is
    one of the ranges and its value is rejected, and the entry, filed under
    the field's name, spells out the allowed range of that field; the
    configuration is valid exactly when there is no entry at all.  The
    wizard files the message of its validator under each rejected field in
    the same way. *)
Theorem C5_every_violation_is_reported (c : gmap string value)
  (d : gmap string string) (st : App.state) (f : string) :
  App.newErrors c !! f =
    match App.get App.ranges f with
    | Some r => if App.validateField f (App.prop c f) then None
                else Some ("Must be between " +:+ App.label r)
    | None => None
    end /\
  map (fun p => (fst p, App.label (snd p))) App.ranges =
    [ ("fc", "1 MHz - 6 GHz"); ("fs", "1 MHz - 20 MHz"); ("rfg", "0-47 dB");
      ("ifg", "0-40 dB"); ("bbg", "0-62 dB") ] /\
  (fst (App.validateAll st) = true <->
     forall g, App.newErrors (App.config st) !! g = None) /\
  App.errors (snd (App.validateAll st)) = App.newErrors (App.config st) /\
  RFConfiguration.newErrors d !! f =
    match App.get RFConfiguration.validationRules f with
    | Some _ => Some <$> RFConfiguration.validateField f (RFConfiguration.field d f)
    | None => None
    end.
Proof.
  split; [apply ValidationFacts.App_newErrors_lookup |].
  split; [reflexivity |].
  split; [| split; [reflexivity |]].
  - unfold App.validateAll. simpl. rewrite bool_decide_eq_true.
    apply ValidationFacts.size_zero_iff.
  - rewrite ValidationFacts.RF_newErrors_lookup.
    destruct (App.get RFConfiguration.validationRules f); [| reflexivity].
    destruct (RFConfiguration.validateField f _) as [m |] eqn:E; [| reflexivity].
    rewrite (DomainFacts.RF_message_nonempty _ _ _ E). reflexivity.
Qed.

(** ** What validation reads and writes *)

Module PurityFacts.
Import JS App.






End PurityFacts.




(** ** Blur on the numeric inputs *)

(** C8. [handleBlur] is not among the names in scope in [App], so a blur
    on any of the five numeric inputs ends in a ReferenceError for that
    name, in every state and whatever the back end: the handler validates
    nothing, the state is the one before the event. *)
Theorem C8_blur_raises_ReferenceError
  (fetch : App.request -> App.response) (st : App.state) (f : string) :
  f ∈ App.numericInputs ->
  App.get (App.scope fetch) "handleBlur" = None /\
  App.dispatch fetch (App.Blur f) st = App.Throw (App.ReferenceError "handleBlur") st.
Proof.
  intros Hf. split; [reflexivity |].
  unfold App.dispatch. rewrite bool_decide_eq_true_2 by exact Hf. reflexivity.
Qed.

Lemma C8_witness :
  App.get (App.scope (fun _ => App.HttpOk ∅)) "handleBlur" = None /\
  App.dispatch (fun _ => App.HttpOk ∅) (App.Blur "fc") App.initialState
    = App.Throw (App.ReferenceError "handleBlur") App.initialState.
Proof.
  apply (C8_blur_raises_ReferenceError (fun _ => App.HttpOk ∅) App.initialState "fc").
  apply (bool_decide_unpack _). vm_compute. exact I.
Defined.

(** ** Reset to defaults *)

Module ResetFacts.

Lemma initial_is_defaults_with_port :
  App.initialConfig = <["port" := VString ""]> App.defaults.
Proof.
  vm_compute. reflexivity.
Qed.

End ResetFacts.

(** C10. "Reset to Defaults" stores an object without the key [port]:
    whatever port had been entered, after the reset [config.port] reads
    [undefined], where the initial configuration had the empty string;
    every other key has the value of the initial configuration. *)
Theorem C10_reset_drops_the_port
  (fetch : App.request -> App.response) (st : App.state) (k : string) :
  k <> "port" ->
  exists st',
    App.dispatch fetch App.ResetClicked st = App.Normal VUndefined st' [] /\
    App.config st' !! "port" = None /\
    App.prop (App.config st') "port" = VUndefined /\
    App.initialConfig !! "port" = Some (VString "") /\
    App.config st' !! k = App.initialConfig !! k.
Proof.
  intros Hk. eexists. split; [reflexivity |]. simpl.
  split; [reflexivity |]. split; [reflexivity |]. split; [reflexivity |].
  rewrite ResetFacts.initial_is_defaults_with_port.
  rewrite lookup_insert_ne by congruence. reflexivity.
Qed.

Lemma C10_witness :
  let st := App.updateConfig "port" (VString "/dev/ttyUSB0") App.initialState in
  App.config st !! "port" = Some (VString "/dev/ttyUSB0") /\
  exists st',
    App.dispatch (fun _ => App.HttpOk ∅) App.ResetClicked st
      = App.Normal VUndefined st' [] /\
    App.config st' !! "port" = None /\
    App.prop (App.config st') "port" = VUndefined /\
    App.initialConfig !! "port" = Some (VString "") /\
    App.config st' !! "fc" = App.initialConfig !! "fc".
Proof.
  split; [vm_compute; reflexivity |].
  apply (C10_reset_drops_the_port (fun _ => App.HttpOk ∅)
           (App.updateConfig "port" (VString "/dev/ttyUSB0") App.initialState)
           "fc").
  discriminate.
Defined.

(** ** The File protocol *)

(** C3, on the code.  A configuration with the File protocol and an empty
    file path, its numeric fields in range, passes [validateAll] and is
    posted to the back end as it is; the configuration with a path passes
    as well.  In the wizard, by contrast, File is never selected without a
    file: clicking the File card selects nothing, and the only selection of
    File is the one that carries the chosen file. *)
Theorem C3_file_without_path_is_saved (fetch : App.request -> App.response) :
  let st := App.updateConfig "streamingProtocol" (VString "file") App.initialState in
  let st2 := App.handleFileSelect (Some "capture.bin") st in
  App.config st !! "filePath" = Some (VString "") /\
  fst (App.validateAll st) = true /\
  (exists st', App.handleSubmit fetch st
     = App.Normal VUndefined st'
         [ {| App.url := "/api/config"; App.body := App.config st |} ]) /\
  App.config st2 !! "filePath" = Some (VString "capture.bin") /\
  fst (App.validateAll st2) = true /\
  StreamingProtocolSelector.handleProtocolSelect "file" = [] /\
  (forall chosen sel sels,
      sel ∈ snd (StreamingProtocolSelector.handleFileChange chosen sels) ->
      StreamingProtocolSelector.protocolId sel = "file" /\
      is_Some (StreamingProtocolSelector.file sel)).
Proof.
  intros st st2.
  assert (forall f, App.newErrors (App.config st) !! f = None) as Hok.
  { intros f. rewrite ValidationFacts.App_newErrors_lookup.
    destruct (App.get App.ranges f) as [r |] eqn:E; [| reflexivity].
    assert (f ∈ App.keys App.ranges) as Hin.
    { destruct (decide (f ∈ App.keys App.ranges)) as [|Hn]; [assumption |].
      rewrite (ObjectFacts.get_absent _ _ Hn) in E. discriminate. }
    vm_compute in Hin.
    repeat (apply elem_of_cons in Hin as [-> | Hin]; [reflexivity |]).
    inversion Hin. }
  split; [reflexivity |]. split; [vm_compute; reflexivity |].
  split.
  { destruct (SubmitFacts.App_handleSubmit_valid fetch st Hok) as (st' & H & _).
    exists st'. exact H. }
  split; [reflexivity |]. split; [vm_compute; reflexivity |].
  split; [reflexivity |].
  intros [f |] sel sels Hin; simpl in Hin.
  - apply list_elem_of_singleton in Hin as ->. simpl. eauto.
  - inversion Hin.
Qed.


(** ** The frame codec *)

Module CodecFacts.
Import Codec.

Lemma take_app (n : nat) (a b : list byte) :
  length a = n -> take n (a ++ b) = Some (a, b).
Proof.
  intros <-. unfold take. rewrite length_app.
  destruct (Nat.leb_spec (length a) (length a + length b)) as [_ | H]; [| lia].
  rewrite firstn_app, Nat.sub_diag, firstn_all, firstn_O, app_nil_r.
  rewrite skipn_app, Nat.sub_diag, skipn_all. reflexivity.
Qed.

Section Layout.
Variables (version : byte) (big_endian : bool) (w : nat) (checksum : list byte -> Z).

Lemma length_put (n : nat) (x : Z) : length (put big_endian n x) = n.
Proof.
  unfold put. destruct big_endian; [rewrite length_rev |]; apply length_le_split.
Qed.

Lemma get_put (n : nat) (x : Z) :
  get_uint big_endian (put big_endian n x) = x mod 2 ^ (Z.of_nat n * 8).
Proof.
  unfold get_uint, put. destruct big_endian; [rewrite rev_involutive |];
    apply le_combine_split.
Qed.

Lemma get_put_small (n : nat) (x : Z) :
  0 <= x < 2 ^ (Z.of_nat n * 8) -> get_uint big_endian (put big_endian n x) = x.
Proof. intros H. rewrite get_put. apply Z.mod_small. exact H. Qed.

Lemma length_payload (r : ConfigurationRecord) :
  length (payload version big_endian r) = 19%nat.
Proof.
  unfold payload. cbn [length app]. rewrite !length_app, !length_put. reflexivity.
Qed.

Lemma unsigned_of_small (x : Z) : 0 <= x < 256 -> byte.unsigned (byte.of_Z x) = x.
Proof.
  intros H. rewrite byte.unsigned_of_Z. unfold byte.wrap.
  apply Z.mod_small. exact H.
Qed.

(** The fields of a record that passes [validate] fit their widths. *)
Lemma validate_ok (r : ConfigurationRecord) :
  validate r = None ->
  1000000 <= carrier_frequency_hz r <= 6000000000 /\
  1000000 <= sampling_frequency_hz r <= 20000000 /\
  0 <= rf_gain_db r <= 47 /\
  0 <= if_gain_db r <= 40 /\
  0 <= baseband_gain_db r <= 62 /\
  (protocol r = File -> exists path, source_file_path r = Some path /\ path <> "").
Proof.
  unfold validate, within.
  repeat match goal with
         | |- context [negb ((?a <=? ?b) && (?c <=? ?d))] =>
             destruct (Z.leb_spec a b); destruct (Z.leb_spec c d);
             cbn [andb negb]; try discriminate
         end.
  intros Hres. repeat (split; [lia |]).
  intros Hp. rewrite Hp in Hres. destruct (source_file_path r) as [path |];
    [| discriminate].
  exists path. split; [reflexivity |].
  destruct (String.eqb_spec path ""); [discriminate | assumption].
Qed.

Lemma parse_payload (r : ConfigurationRecord) :
  validate r = None ->
  parse version big_endian (payload version big_endian r) = inl (framed r).
Proof.
  intros Hv. apply validate_ok in Hv as (Hfc & Hfs & Hrf & Hif & Hbb & _).
  unfold payload. cbn [app parse]. rewrite Z.eqb_refl. cbn [negb].
  rewrite !unsigned_of_small
    by (destruct (mode r), (protocol r), (scheme r); cbn; lia).
  assert (mode_of (mode_code (mode r)) = Some (mode r)) as ->
    by (destruct (mode r); reflexivity).
  assert (protocol_of (protocol_code (protocol r)) = Some (protocol r)) as ->
    by (destruct (protocol r); reflexivity).
  assert (modulation_of (modulation_code (scheme r)) = Some (scheme r)) as ->
    by (destruct (scheme r); reflexivity).
  rewrite (take_app 8) by apply length_put.
  rewrite (take_app 4) by apply length_put.
  rewrite !unsigned_of_small by lia.
  unfold framed. f_equal. f_equal.
  - apply get_put_small. change (2 ^ (Z.of_nat 8 * 8)) with 18446744073709551616. lia.
  - apply get_put_small. change (2 ^ (Z.of_nat 4 * 8)) with 4294967296. lia.
Qed.

(** Decoding the frame of a valid record gives the record as framed. *)
Lemma decode_encode (r : ConfigurationRecord) :
  validate r = None ->
  exists f, encode version big_endian w checksum r = inl f /\
            decode version big_endian w checksum (bytes f) = inl (framed r).
Proof.
  intros Hv. unfold encode. rewrite Hv. eexists. split; [reflexivity |].
  cbn [bytes]. unfold decode.
  rewrite (take_app 19) by apply length_payload.
  rewrite length_put, Nat.eqb_refl. cbn [negb].
  rewrite get_put. unfold checksum_of at 1.
  rewrite Z.mod_mod by (apply Z.pow_nonzero; lia).
  fold (checksum_of w checksum (payload version big_endian r)).
  rewrite Z.eqb_refl.
  cbn [negb]. apply parse_payload. exact Hv.
Qed.
End Layout.

End CodecFacts.

(** C2, as stated, fails on the documented layout: a valid record of the
    File protocol carries a path, the frame has no field for it, and the
    record that comes back from its frame has none (CRC-16/CCITT, version
    byte 1, big-endian fields). *)
Lemma C2_counterexample :
  let r := {| Codec.mode := Codec.Receive; Codec.protocol := Codec.File;
              Codec.scheme := Codec.BPSK;
              Codec.carrier_frequency_hz := 915000000;
              Codec.sampling_frequency_hz := 2000000;
              Codec.rf_gain_db := 14; Codec.if_gain_db := 20;
              Codec.baseband_gain_db := 30;
              Codec.source_file_path := Some "capture.bin" |} in
  Codec.validate r = None /\
  exists f,
    Codec.encode Byte.x01 true 2 Codec.crc16_ccitt r = inl f /\
    Codec.decode Byte.x01 true 2 Codec.crc16_ccitt (Codec.bytes f)
      = inl (Codec.framed r) /\
    Codec.decode Byte.x01 true 2 Codec.crc16_ccitt (Codec.bytes f) <> inl r.
Proof.
  split; [reflexivity |]. eexists. split; [reflexivity |].
  split; [vm_compute; reflexivity | vm_compute; discriminate].
Qed.

(** C2, amended.  Whatever the version byte, the byte order and the
    checksum, a record that passes [validate] has a frame, and decoding
    that frame yields the record with every field of the layout intact and
    without a file path; so decoding inverts encoding exactly on the valid
    records that carry no path. *)
Theorem C2_decode_inverts_encode_up_to_the_file_path
  (version : byte) (big_endian : bool) (width : nat) (checksum : list byte -> Z)
  (r : Codec.ConfigurationRecord) :
  Codec.validate r = None ->
  exists f,
    Codec.encode version big_endian width checksum r = inl f /\
    Codec.decode version big_endian width checksum (Codec.bytes f)
      = inl (Codec.framed r) /\
    (Codec.source_file_path r = None ->
     Codec.decode version big_endian width checksum (Codec.bytes f) = inl r).
Proof.
  intros Hv.
  destruct (CodecFacts.decode_encode version big_endian width checksum r Hv)
    as (f & He & Hd).
  exists f. split; [exact He |]. split; [exact Hd |].
  intros Hp. rewrite Hd. f_equal. destruct r. simpl in Hp. subst. reflexivity.
Qed.

Lemma C2_witness :
  let r := {| Codec.mode := Codec.Transmit; Codec.protocol := Codec.UART;
              Codec.scheme := Codec.QPSK;
              Codec.carrier_frequency_hz := 915000000;
              Codec.sampling_frequency_hz := 2000000;
              Codec.rf_gain_db := 14; Codec.if_gain_db := 20;
              Codec.baseband_gain_db := 30;
              Codec.source_file_path := None |} in
  exists f,
    Codec.encode Byte.x01 false 2 Codec.crc16_ccitt r = inl f /\
    Codec.decode Byte.x01 false 2 Codec.crc16_ccitt (Codec.bytes f)
      = inl (Codec.framed r) /\
    (Codec.source_file_path r = None ->
     Codec.decode Byte.x01 false 2 Codec.crc16_ccitt (Codec.bytes f) = inl r).
Proof.
  apply (C2_decode_inverts_encode_up_to_the_file_path
           Byte.x01 false 2 Codec.crc16_ccitt).
  reflexivity.
Defined.

(** ** The serial transport manager *)

Module TransportFacts.
Import Transport.

(** The last state of a path that starts after [s]. *)
Lemma last_cons (s d : session_state) (p : list session_state) :
  List.last (s :: p) d = List.last p s.
Proof.
  revert s d. induction p as [| s' p IH]; intros s d; [reflexivity |].
  change (List.last (s :: s' :: p) d) with (List.last (s' :: p) d).
  rewrite (IH s' d), (IH s' s). reflexivity.
Qed.

Lemma run_app (from : session_state) (p1 p2 : list session_state) :
  run from p1 -> run (List.last p1 from) p2 -> run from (p1 ++ p2).
Proof.
  revert from. induction p1 as [| s p1 IH]; intros from H1 H2; [exact H2 |].
  destruct H1 as [Hs H1]. split; [exact Hs |]. apply IH; [exact H1 |].
  rewrite last_cons in H2. exact H2.
Qed.

Lemma last_app (d : session_state) (p1 p2 : list session_state) :
  List.last (p1 ++ p2) d = List.last p2 (List.last p1 d).
Proof.
  revert d. induction p1 as [| s p1 IH]; intros d; [reflexivity |].
  change ((s :: p1) ++ p2) with (s :: (p1 ++ p2)).
  rewrite !last_cons. apply IH.
Qed.

Lemma exchange_path (frame : list byte) (l : line) :
  run Open (exchange frame l).1.2 /\
  List.last (exchange frame l).1.2 Open
    = (if (exchange frame l).2 then Open else Closed).
Proof.
  unfold exchange. destruct (written l) as [n |].
  - destruct (n <? length frame)%nat.
    + simpl. repeat split; constructor.
    + destruct (reply l) as [[| | code] |]; simpl; repeat split; constructor.
  - simpl. repeat split; constructor.
Qed.

(** The path of a session that is opened for one exchange and closed. *)
Lemma transient_path (path : list session_state) (b : bool) :
  run Open path ->
  List.last path Open = (if b then Open else Closed) ->
  run Closed ([Opening; Open] ++ path ++ (if b then [Closing; Closed] else [])) /\
  List.last ([Opening; Open] ++ path ++ (if b then [Closing; Closed] else [])) Closed
    = Closed.
Proof.
  intros Hrun Hlast. split.
  - apply (run_app Closed [Opening; Open]); [repeat split; constructor |].
    change (List.last [Opening; Open] Closed) with Open.
    apply run_app; [exact Hrun |]. rewrite Hlast.
    destruct b; simpl; repeat split; constructor.
  - rewrite !last_app. change (List.last [Opening; Open] Closed) with Open.
    rewrite Hlast. destruct b; reflexivity.
Qed.

Section Send.
Variables (held : ports) (caller : nat) (port : string)
          (frame : list byte) (l : line).

(** [send] touches no other port. *)
Lemma send_other (p : string) :
  p <> port -> (send held caller port frame l).1.2 !! p = held !! p.
Proof.
  intros Hp. unfold send, close.
  destruct (held !! port) as [owner |] eqn:E.
  - destruct (owner =? caller)%nat; [| reflexivity].
    destruct (exchange frame l) as [[o path] []]; simpl; [reflexivity |].
    apply lookup_delete_ne. congruence.
  - destruct (opens l); [| reflexivity].
    destruct (exchange frame l) as [[o path] b]; simpl.
    rewrite lookup_delete_ne, lookup_insert_ne by congruence. reflexivity.
Qed.

(** A port held after [send] was held before it, by the same session. *)
Lemma send_holds_nothing_new (p : string) (s : nat) :
  (send held caller port frame l).1.2 !! p = Some s -> held !! p = Some s.
Proof.
  destruct (decide (p = port)) as [-> | Hp]; [| rewrite send_other; auto].
  unfold send, close. destruct (held !! port) as [owner |] eqn:E.
  - destruct (owner =? caller)%nat; [| simpl; rewrite E; auto].
    destruct (exchange frame l) as [[o path] []]; simpl; [rewrite E; auto |].
    rewrite lookup_delete_eq. discriminate.
  - destruct (opens l); [| simpl; rewrite E; auto].
    destruct (exchange frame l) as [[o path] b]; simpl.
    rewrite lookup_delete_eq. discriminate.
Qed.

(** A [send] that had to open the port has released it on return, and
    its session went from [Closed] back to [Closed]. *)
Lemma send_transient :
  held !! port = None ->
  (send held caller port frame l).1.2 = held /\
  run Closed (send held caller port frame l).2 /\
  List.last (send held caller port frame l).2 Closed = Closed.
Proof.
  intros E. unfold send, close. rewrite E.
  destruct (opens l); [| simpl; repeat split; constructor].
  pose proof (exchange_path frame l) as [Hrun Hlast].
  destruct (exchange frame l) as [[o path] b]. cbn [fst snd] in *.
  split; [rewrite delete_insert_eq; apply delete_id; exact E |].
  apply transient_path; assumption.
Qed.

(** On the session of the caller, [send] follows the state machine from
    [Open], and the port stays with the caller exactly when the session
    is open at the end. *)
Lemma send_reusing :
  held !! port = Some caller ->
  run Open (send held caller port frame l).2 /\
  ((List.last (send held caller port frame l).2 Open = Open /\
    (send held caller port frame l).1.2 = held) \/
   (List.last (send held caller port frame l).2 Open = Closed /\
    (send held caller port frame l).1.2 = delete port held)).
Proof.
  intros E. unfold send, close. rewrite E, Nat.eqb_refl.
  pose proof (exchange_path frame l) as [Hrun Hlast].
  destruct (exchange frame l) as [[o path] []]; simpl in *;
    (split; [exact Hrun |]); [left | right]; split; auto.
Qed.

(** On the session of the caller, the outcome tells whether the port
    stays with the caller: it does after a reply of the device, and it is
    released after a failed or partial write and after a timeout. *)
Lemma send_reusing_outcome :
  held !! port = Some caller ->
  (send held caller port frame l).1.2
    = match (send held caller port frame l).1.1 with
      | Timeout | PortUnavailable => delete port held
      | Acknowledged | DeviceRejected _ | ChecksumMismatchReportedByDevice => held
      end.
Proof.
  intros E. unfold send, close, exchange. rewrite E, Nat.eqb_refl.
  destruct (written l) as [n |]; [| reflexivity].
  destruct (n <? length frame)%nat; [reflexivity |].
  destruct (reply l) as [[| | code] |]; reflexivity.
Qed.
End Send.

(** [probe] leaves the ports as they were. *)
Lemma probe_releases (held : ports) (caller : nat) (port : string) (l : line) :
  (probe held caller port l).1.2 = held /\
  run Closed (probe held caller port l).2 /\
  List.last (probe held caller port l).2 Closed = Closed.
Proof.
  unfold probe, close. destruct (held !! port) as [owner |] eqn:E.
  - simpl. repeat split.
  - destruct (opens l); [| simpl; repeat split; constructor].
    destruct (reply l); simpl;
      (split; [rewrite delete_insert_eq; apply delete_id; exact E |]);
      repeat split; constructor.
Qed.

Lemma send_each_other (caller : nat) (port : string)
  (work : list (list byte * line)) (held : ports) (p : string) :
  p <> port -> (send_each held caller port work).2 !! p = held !! p.
Proof.
  intros Hp. revert held. induction work as [| [frame l] work IH]; intros held;
    [reflexivity |].
  simpl. pose proof (send_other held caller port frame l p Hp) as Hs.
  destruct (send held caller port frame l) as [[o held1] path].
  specialize (IH held1). destruct (send_each held1 caller port work) as [os held2].
  simpl in *. congruence.
Qed.

(** Leaving the scope of a session releases the port, whatever the sends
    inside did. *)
Lemma with_session_releases (held : ports) (caller : nat) (port : string)
  (granted : bool) (work : list (list byte * line)) :
  held !! port = None -> (with_session held caller port granted work).2 = held.
Proof.
  intros E. unfold with_session, close. rewrite E.
  destruct granted; [| reflexivity].
  pose proof (send_each_other caller port work (<[port := caller]> held)) as Ho.
  destruct (send_each _ caller port work) as [os held1]. simpl in *.
  apply map_eq. intros p. destruct (decide (p = port)) as [-> | Hp].
  - rewrite lookup_delete_eq, E. reflexivity.
  - rewrite lookup_delete_ne, Ho, lookup_insert_ne by congruence. reflexivity.
Qed.

End TransportFacts.

(** C6, as stated, fails: [send] reuses the session of a caller that holds
    the port, and when the device acknowledges, the session goes back to
    [Open] and the port is still held by the caller when [send] returns. *)
Lemma C6_counterexample :
  let held : gmap string nat := {[ "COM3" := 1%nat ]} in
  let acking := {| Transport.opens := true; Transport.written := Some 3%nat;
                   Transport.reply := Some Transport.ReplyAck |} in
  Transport.send held 1 "COM3" [Byte.x01; Byte.x02; Byte.x03] acking
    = (Transport.Acknowledged, held,
       [Transport.Sending; Transport.AwaitingAck; Transport.Open]) /\
  (Transport.send held 1 "COM3" [Byte.x01; Byte.x02; Byte.x03] acking).1.2 !! "COM3"
    = Some 1%nat.
Proof. split; vm_compute; reflexivity. Qed.

(** C6, amended.  The Serial Transport Manager never leaves a port held
    that an operation opened.  Whatever the port and the device do (the
    port cannot be opened, the write fails or is partial, no reply comes
    before the timeout, the device acknowledges or rejects): a port held
    after [send] was held before it, by the same session; a [send] that
    opens the port releases it on every path, its session ending in
    [Closed]; a [send] on a session that the caller holds follows the state
    machine from [Open], leaves the port with the caller after a reply of
    the device and releases it after a failed or partial write and after
    a timeout; [probe] leaves the held ports as they were, its session
    ending in [Closed]; and a session acquired for a scope is released
    when the scope is left, whatever the sends inside did. *)
Theorem C6_operations_release_the_ports_they_open
  (held : gmap string nat) (caller : nat) (port : string)
  (frame : list byte) (l : Transport.line)
  (granted : bool) (work : list (list byte * Transport.line)) :
  (forall p s, (Transport.send held caller port frame l).1.2 !! p = Some s ->
               held !! p = Some s) /\
  (held !! port = None ->
     (Transport.send held caller port frame l).1.2 = held /\
     Transport.run Transport.Closed (Transport.send held caller port frame l).2 /\
     List.last (Transport.send held caller port frame l).2 Transport.Closed
       = Transport.Closed) /\
  (held !! port = Some caller ->
     Transport.run Transport.Open (Transport.send held caller port frame l).2 /\
     ((List.last (Transport.send held caller port frame l).2 Transport.Open
         = Transport.Open /\
       (Transport.send held caller port frame l).1.2 = held) \/
      (List.last (Transport.send held caller port frame l).2 Transport.Open
         = Transport.Closed /\
       (Transport.send held caller port frame l).1.2 = delete port held)) /\
     (Transport.send held caller port frame l).1.2
       = match (Transport.send held caller port frame l).1.1 with
         | Transport.Timeout | Transport.PortUnavailable => delete port held
         | Transport.Acknowledged | Transport.DeviceRejected _
         | Transport.ChecksumMismatchReportedByDevice => held
         end) /\
  ((Transport.probe held caller port l).1.2 = held /\
   Transport.run Transport.Closed (Transport.probe held caller port l).2 /\
   List.last (Transport.probe held caller port l).2 Transport.Closed
     = Transport.Closed) /\
  (held !! port = None ->
     (Transport.with_session held caller port granted work).2 = held).
Proof.
  split; [apply TransportFacts.send_holds_nothing_new |].
  split; [apply TransportFacts.send_transient |].
  split.
  { intros E. destruct (TransportFacts.send_reusing held caller port frame l E)
      as [Hrun Hend].
    split; [exact Hrun |]. split; [exact Hend |].
    apply TransportFacts.send_reusing_outcome. exact E. }
  split; [apply TransportFacts.probe_releases |].
  apply TransportFacts.with_session_releases.
Qed.

Lemma C6_witness :
  let held : gmap string nat := {[ "COM3" := 7%nat ]} in
  let port := "/dev/ttyUSB0" in
  let frame := [Byte.x01; Byte.x02; Byte.x03] in
  let failing := {| Transport.opens := true; Transport.written := Some 1%nat;
                    Transport.reply := None |} in
  let silent := {| Transport.opens := true; Transport.written := Some 3%nat;
                   Transport.reply := None |} in
  Transport.send held 1 port frame failing
    = (Transport.PortUnavailable, held,
       [Transport.Opening; Transport.Open; Transport.Sending; Transport.Closed]) /\
  (Transport.send held 1 port frame failing).1.2 = held /\
  (Transport.send held 1 port frame silent).1.1 = Transport.Timeout /\
  (Transport.send held 7 "COM3" frame silent).1.2 = delete "COM3" held /\
  (Transport.with_session held 1 port true [(frame, failing); (frame, silent)]).2
    = held.
Proof.
  intros held port frame failing silent.
  destruct (C6_operations_release_the_ports_they_open held 1 port frame failing true
              [(frame, failing); (frame, silent)])
    as (_ & Hsend & _ & _ & Hscope).
  destruct (C6_operations_release_the_ports_they_open held 7 "COM3" frame silent true [])
    as (_ & _ & Hreuse & _).
  split; [vm_compute; reflexivity |].
  split; [apply Hsend; reflexivity |].
  split; [reflexivity |].
  split; [| apply Hscope; reflexivity].
  destruct (Hreuse eq_refl) as (_ & _ & ->). reflexivity.
Defined.

(** * Further properties of the components *)

(** ** The handlers of the main form *)

Module AppFacts.
Import JS App AppRun.

(** What [handleSubmit] does in terms of [newErrors]. *)
Lemma handleSubmit_cases fetch (st : state) :
  let e := newErrors (config st) in
  let req := {| url := "/api/config"; body := config st |} in
  (size e <> 0%nat /\
   handleSubmit fetch st
     = Normal VUndefined
         (setStatus (Some {| type := "error";
                             message := "Please fix validation errors before saving" |})
            (setErrors e st)) []) \/
  (size e = 0%nat /\
   exists sm,
     handleSubmit fetch st
       = Normal VUndefined
           (setIsSubmitting false
              (setStatus (Some sm)
                 (setStatus None (setIsSubmitting true (setErrors e st))))) [req] /\
     message sm <> "" /\
     (type sm = "success" <-> exists data, fetch req = HttpOk data)).
Proof.
  intros e req. unfold handleSubmit, validateAll. fold e.
  destruct (decide (size e = 0%nat)) as [Hz | Hnz].
  - right. split; [exact Hz |]. rewrite bool_decide_eq_true_2 by exact Hz.
    cbn [negb]. change (config (setStatus None (setIsSubmitting true (setErrors e st))))
      with (config st). fold req.
    destruct (fetch req) as [data | err | m] eqn:E; eexists; (split; [reflexivity |]);
      cbn [message type].
    + split; [discriminate |]. split; [eauto | reflexivity].
    + split.
      * unfold orElse. destruct (err !! "error") as [s |]; [| discriminate].
        destruct (String.eqb_spec s ""); [discriminate | assumption].
      * split; [discriminate | intros [data Hd]; discriminate].
    + split; [discriminate |]. split; [discriminate | intros [data Hd]; discriminate].
  - left. split; [exact Hnz |]. rewrite bool_decide_eq_false_2 by exact Hnz.
    reflexivity.
Qed.

(** The messages that [validateAll] files are those of the ranges. *)
Lemma newErrors_entry (c : gmap string value) (f m : string) :
  newErrors c !! f = Some m ->
  exists r, get ranges f = Some r /\ m = "Must be between " +:+ label r /\
            validateField f (prop c f) = false.
Proof.
  rewrite ValidationFacts.App_newErrors_lookup.
  destruct (get ranges f) as [r |]; [| discriminate].
  destruct (validateField f (prop c f)); [discriminate |].
  intros [= <-]. eauto.
Qed.

Lemma handleSubmit_frame fetch (st : state) :
  config (settle (handleSubmit fetch st)) = config st /\
  errors (settle (handleSubmit fetch st)) = newErrors (config st).
Proof.
  destruct (handleSubmit_cases fetch st) as [[_ ->] | [_ (sm & -> & _)]];
    split; reflexivity.
Qed.

Lemma updateConfig_errors (f : string) (v : value) (st : state) :
  (forall m, errors st !! f = Some m -> m <> "") ->
  errors (updateConfig f v st) = delete f (errors st).
Proof.
  intros Hne. unfold updateConfig. destruct (errors st !! f) as [m |] eqn:E.
  - destruct (String.eqb_spec m "") as [-> | _]; [| reflexivity].
    exfalso. exact (Hne "" eq_refl eq_refl).
  - simpl. symmetry. apply delete_id. exact E.
Qed.

Lemma port_is_falsy (c : gmap string value) :
  c !! "port" = None \/ c !! "port" = Some (VString "") ->
  truthy (prop c "port") = false.
Proof. unfold prop. intros [-> | ->]; reflexivity. Qed.

Lemma port_is_truthy (c : gmap string value) (p : string) :
  c !! "port" = Some (VString p) -> p <> "" -> truthy (prop c "port") = true.
Proof.
  unfold prop. intros -> Hp. simpl.
  destruct (String.eqb_spec p ""); [contradiction | reflexivity].
Qed.

End AppFacts.

(** X1. [updateConfig] stores the value under the edited field and leaves
    every other field, the status and the submitting flag as they were; it
    never adds an error: the errors of the other fields stay, and the
    error of the edited field, when it has a text, is removed whatever was
    typed. *)
Theorem X1_updateConfig_stores_value_and_clears_its_error
  (f g : string) (v : value) (st : App.state) :
  App.config (App.updateConfig f v st) !! g
    = (if decide (g = f) then Some v else App.config st !! g) /\
  App.errors (App.updateConfig f v st) !! g
    = (if decide (g = f)
       then match App.errors st !! f with
            | Some m => if String.eqb m "" then Some m else None
            | None => None
            end
       else App.errors st !! g) /\
  App.status (App.updateConfig f v st) = App.status st /\
  App.isSubmitting (App.updateConfig f v st) = App.isSubmitting st.
Proof.
  unfold App.updateConfig.
  destruct (App.errors st !! f) as [m |] eqn:E; [destruct (String.eqb m "") |];
    cbn [App.config App.errors App.status App.isSubmitting App.setConfig App.setErrors];
    (split; [rewrite lookup_insert; repeat case_decide; congruence |]);
    (split; [| split; reflexivity]);
    case_decide; subst; rewrite ?lookup_delete_eq, ?lookup_delete_ne by congruence;
    congruence.
Qed.

(** X2. After a submit the errors are those of the submitted
    configuration, the Save button is disabled exactly when validation
    failed, and an edit of a field then removes that field from the errors
    and no other, whether or not the new value is in range. *)
Theorem X2_edit_after_submit_clears_only_that_field
  (fetch : App.request -> App.response) (st : App.state) (f : string) (v : value) :
  let st1 := AppRun.settle (App.handleSubmit fetch st) in
  App.errors st1 = App.newErrors (App.config st) /\
  AppRun.hasErrors st1 = negb (fst (App.validateAll st)) /\
  App.errors (App.updateConfig f v st1) = delete f (App.newErrors (App.config st)) /\
  App.config (App.updateConfig f v st1) = <[f := v]> (App.config st).
Proof.
  intros st1. destruct (AppFacts.handleSubmit_frame fetch st) as [Hc He].
  fold st1 in Hc, He. split; [exact He |]. split; [| split].
  - unfold AppRun.hasErrors, App.validateAll. rewrite He. cbn [fst].
    destruct (decide (size (App.newErrors (App.config st)) = 0%nat)) as [Hz | Hnz].
    + rewrite (bool_decide_eq_true_2 _ Hz), Hz. reflexivity.
    + rewrite (bool_decide_eq_false_2 _ Hnz). apply bool_decide_eq_true_2. lia.
  - rewrite AppFacts.updateConfig_errors; [rewrite He; reflexivity |].
    intros m Hm. rewrite He in Hm.
    apply AppFacts.newErrors_entry in Hm as (r & _ & -> & _). discriminate.
  - transitivity (<[f := v]> (App.config st1)); [| rewrite Hc; reflexivity].
    unfold App.updateConfig. destruct (App.errors st1 !! f) as [m |];
      [destruct (String.eqb m "") |]; reflexivity.
Qed.

(** X3. Every request that [handleSubmit] issues is the one POST of the
    unchanged configuration to [/api/config], and each of the five ranged
    fields of its body reads, through [parseFloat], as a number between the
    bounds of the field. *)
Theorem X3_a_saved_configuration_is_in_range
  (fetch : App.request -> App.response) (st : App.state) (req : App.request) :
  req ∈ AppRun.sent (App.handleSubmit fetch st) ->
  AppRun.sent (App.handleSubmit fetch st) = [req] /\
  App.url req = "/api/config" /\
  App.body req = App.config st /\
  forall f r, App.get App.ranges f = Some r ->
    isNaN (parseFloat (App.prop (App.body req) f)) = false /\
    ge (parseFloat (App.prop (App.body req) f)) (App.min r) = true /\
    le (parseFloat (App.prop (App.body req) f)) (App.max r) = true.
Proof.
  destruct (AppFacts.handleSubmit_cases fetch st) as [[_ ->] | [Hz (sm & -> & _)]];
    cbn [AppRun.sent]; intros Hin; [inversion Hin |].
  apply list_elem_of_singleton in Hin as ->. cbn [App.url App.body].
  repeat split; try reflexivity;
    apply ValidationFacts.size_zero_iff with (f := f) in Hz;
    rewrite ValidationFacts.App_newErrors_lookup, H in Hz;
    unfold App.validateField in Hz; rewrite H in Hz;
    destruct (isNaN _); try discriminate; try reflexivity;
    destruct (ge _ _); try discriminate; try reflexivity;
    destruct (le _ _); try discriminate; reflexivity.
Qed.

Lemma X3_witness :
  let fetch := fun _ : App.request => App.NetworkFailure "offline" in
  let req := {| App.url := "/api/config"; App.body := App.initialConfig |} in
  AppRun.sent (App.handleSubmit fetch App.initialState) = [req] /\
  App.url req = "/api/config" /\
  App.body req = App.config App.initialState /\
  forall f r, App.get App.ranges f = Some r ->
    isNaN (parseFloat (App.prop (App.body req) f)) = false /\
    ge (parseFloat (App.prop (App.body req) f)) (App.min r) = true /\
    le (parseFloat (App.prop (App.body req) f)) (App.max r) = true.
Proof.
  apply (X3_a_saved_configuration_is_in_range
           (fun _ => App.NetworkFailure "offline") App.initialState).
  vm_compute. left.
Defined.

(** X4. [handleSubmit] never throws and always leaves a status with a
    non-empty message; the status is a success exactly when validation
    passed and the back end answered with an ok response, and once
    validation has passed the submitting flag is down at the end whatever
    the back end did (ok, error reply without text, network failure). *)
Theorem X4_submit_always_reports
  (fetch : App.request -> App.response) (st : App.state) :
  exists st' sm,
    App.handleSubmit fetch st = App.Normal VUndefined st' (AppRun.sent (App.handleSubmit fetch st)) /\
    App.status st' = Some sm /\
    App.message sm <> "" /\
    (App.type sm = "success" <->
       fst (App.validateAll st) = true /\
       exists data, fetch {| App.url := "/api/config"; App.body := App.config st |}
                    = App.HttpOk data) /\
    (fst (App.validateAll st) = true -> App.isSubmitting st' = false) /\
    (fst (App.validateAll st) = false -> App.isSubmitting st' = App.isSubmitting st).
Proof.
  unfold App.validateAll at 1 2 3. cbn [fst].
  destruct (AppFacts.handleSubmit_cases fetch st) as [[Hnz ->] | [Hz (sm & -> & Hm & Ht)]].
  - rewrite (bool_decide_eq_false_2 _ Hnz).
    eexists _, _. split; [reflexivity |]. split; [reflexivity |].
    split; [discriminate |]. split; [| split; [discriminate | reflexivity]].
    split; [discriminate | intros [H _]; discriminate].
  - rewrite (bool_decide_eq_true_2 _ Hz).
    eexists _, sm. split; [reflexivity |]. split; [reflexivity |].
    split; [exact Hm |]. split; [| split; [reflexivity | discriminate]].
    rewrite Ht. tauto.
Qed.

Lemma X4_witness :
  let fetch := fun _ : App.request => App.HttpError ∅ in
  exists st' sm,
    App.handleSubmit fetch App.initialState
      = App.Normal VUndefined st' (AppRun.sent (App.handleSubmit fetch App.initialState)) /\
    App.status st' = Some sm /\
    App.message sm <> "" /\
    App.isSubmitting st' = false.
Proof.
  intros fetch.
  destruct (X4_submit_always_reports fetch App.initialState)
    as (st' & sm & H1 & H2 & H3 & _ & H5 & _).
  exists st', sm. repeat split; try assumption.
  apply H5. vm_compute. reflexivity.
Defined.

(** X5. "Check Connection" and "Send to Device" issue a request exactly
    when a port has been entered: with a non-empty port, one POST whose
    body holds that port and nothing else, to [/api/connection] and
    [/api/send]; with the port empty or missing, no request and an error
    status.  Neither looks at the numeric fields or the errors, and neither
    changes the configuration, the errors or the submitting flag. *)
Theorem X5_port_handlers_need_only_a_port
  (fetch : App.request -> App.response) (st : App.state) :
  (forall p, App.config st !! "port" = Some (VString p) -> p <> "" ->
     AppRun.sent (App.handleCheckConnection fetch st)
       = [ {| App.url := "/api/connection"; App.body := {[ "port" := VString p ]} |} ] /\
     AppRun.sent (App.handleSendConfig fetch st)
       = [ {| App.url := "/api/send"; App.body := {[ "port" := VString p ]} |} ]) /\
  (App.config st !! "port" = None \/ App.config st !! "port" = Some (VString "") ->
     App.handleCheckConnection fetch st
       = App.Normal VUndefined
           (App.setStatus (Some {| App.type := "error";
                                   App.message := "Please enter a Serial Port first" |}) st) [] /\
     App.handleSendConfig fetch st
       = App.Normal VUndefined
           (App.setStatus (Some {| App.type := "error";
                                   App.message := "Please enter a Serial Port" |}) st) []) /\
  (forall h, h = App.handleCheckConnection fetch st \/ h = App.handleSendConfig fetch st ->
     App.config (AppRun.settle h) = App.config st /\
     App.errors (AppRun.settle h) = App.errors st /\
     App.isSubmitting (AppRun.settle h) = App.isSubmitting st).
Proof.
  split; [| split].
  - intros p Hp Hne. unfold App.handleCheckConnection, App.handleSendConfig, App.portRequest.
    rewrite (AppFacts.port_is_truthy _ p Hp Hne). unfold App.prop. rewrite Hp.
    split; reflexivity.
  - intros Hp. unfold App.handleCheckConnection, App.handleSendConfig.
    rewrite (AppFacts.port_is_falsy _ Hp). split; reflexivity.
  - intros h [-> | ->]; unfold App.handleCheckConnection, App.handleSendConfig;
      destruct (negb (truthy (App.prop (App.config st) "port")));
      repeat split; reflexivity.
Qed.

Lemma X5_witness :
  let fetch := fun _ : App.request => App.HttpOk ∅ in
  let st := App.updateConfig "rfg" (VString "999")
              (App.updateConfig "port" (VString "COM3") App.initialState) in
  AppRun.sent (App.handleSendConfig fetch st)
    = [ {| App.url := "/api/send"; App.body := {[ "port" := VString "COM3" ]} |} ] /\
  AppRun.sent (App.handleSendConfig fetch App.initialState) = [].
Proof.
  intros fetch st.
  destruct (X5_port_handlers_need_only_a_port fetch st) as (H1 & _ & _).
  destruct (X5_port_handlers_need_only_a_port fetch App.initialState) as (_ & H2 & _).
  split.
  - apply (H1 "COM3"); [vm_compute; reflexivity | discriminate].
  - destruct H2 as [_ ->]; [right; reflexivity | reflexivity].
Defined.



(** ** What the main form keeps at every moment *)

Module AppRunFacts.
Import JS App AppRun.

(** A handler whose reply arrives at once ends as the handler that is run
    in one piece, and issues the same request. *)
Lemma begin_then_reply fetch (ev : event) (st : state) :
  match begin ev st with
  | (st1, Some (req, k)) =>
      settle (dispatch fetch ev st) = resume k (fetch req) st1 /\
      sent (dispatch fetch ev st) = [req]
  | (st1, None) =>
      settle (dispatch fetch ev st) = st1 /\ sent (dispatch fetch ev st) = []
  end.
Proof.
  destruct ev as [| field v | field | file | | |]; cbn [begin dispatch].
  - unfold handleSubmit. destruct (validateAll st) as [valid st1].
    destruct valid; cbn [negb]; [| split; reflexivity].
    cbn [settle sent finish]. unfold resume, savedStatus.
    destruct (fetch _); split; reflexivity.
  - split; reflexivity.
  - destruct (bool_decide (field ∈ numericInputs)); split; reflexivity.
  - split; reflexivity.
  - split; reflexivity.
  - unfold handleCheckConnection.
    destruct (negb (truthy (prop (config st) "port"))); split; reflexivity.
  - unfold handleSendConfig.
    destruct (negb (truthy (prop (config st) "port"))); split; reflexivity.
Qed.

Lemma initial_wellKept : wellKept initialLive.
Proof.
  split; [discriminate |]. split.
  - intros f m Hm. cbn [errors initialState initialLive now] in Hm.
    rewrite lookup_empty in Hm. discriminate.
  - intros k Hk. vm_compute in Hk.
    repeat (apply elem_of_cons in Hk as [-> | Hk]; [eexists; reflexivity |]).
    inversion Hk.
Qed.

Lemma updateConfig_frame (f : string) (v : value) (st : state) :
  isSubmitting (updateConfig f v st) = isSubmitting st /\
  config (updateConfig f v st) = <[f := v]> (config st) /\
  (forall g m, errors (updateConfig f v st) !! g = Some m -> errors st !! g = Some m).
Proof.
  unfold updateConfig.
  destruct (errors st !! f) as [m' |]; [destruct (String.eqb m' "") |];
    cbn [errors setErrors setConfig isSubmitting config];
    repeat split; try tauto.
  intros g m Hm. apply lookup_delete_Some in Hm as [_ Hm]. exact Hm.
Qed.

Lemma defaults_keys (k : string) : k ∈ configKeys -> is_Some (defaults !! k).
Proof.
  intros Hk. vm_compute in Hk.
  repeat (apply elem_of_cons in Hk as [-> | Hk]; [eexists; reflexivity |]).
  inversion Hk.
Qed.

(** What the first part of a handler keeps. *)
Lemma begin_wellKept (ev : event) (st : state) (ks : list continuation) :
  wellKept {| now := st; awaiting := ks |} ->
  wellKept {| now := (begin ev st).1;
              awaiting := ks ++ match (begin ev st).2 with
                                | Some (_, k) => [k]
                                | None => []
                                end |}.
Proof.
  intros (Hs & He & Hk). cbn [now awaiting] in *.
  destruct ev as [| field v | field | file | | |]; cbn [begin].
  - unfold validateAll.
    destruct (bool_decide (size (newErrors (config st)) = 0%nat));
      cbn [negb fst snd]; (split; [| split]); cbn [now awaiting]; cbn; auto.
    + intros _. apply elem_of_app. right. left.
    + intros f m Hm. apply AppFacts.newErrors_entry in Hm as (r & Hr & -> & _). eauto.
    + intros H. apply elem_of_app. left. auto.
    + intros f m Hm. apply AppFacts.newErrors_entry in Hm as (r & Hr & -> & _). eauto.
  - destruct (updateConfig_frame field (VString v) st) as (H1 & H2 & H3).
    cbn [fst snd]. rewrite app_nil_r. split; [| split]; cbn [now awaiting].
    + rewrite H1. exact Hs.
    + intros f m Hm. apply (He f m), H3, Hm.
    + intros k Hin. rewrite H2. destruct (decide (field = k)) as [-> | Hne].
      * rewrite lookup_insert_eq. eauto.
      * rewrite lookup_insert_ne by assumption. auto.
  - cbn [fst snd]. rewrite app_nil_r. split; [| split]; assumption.
  - cbn [fst snd]. rewrite app_nil_r. destruct file as [name |];
      [| split; [| split]; assumption].
    cbn [handleFileSelect].
    destruct (updateConfig_frame "filePath" (VString name) st) as (H1 & H2 & H3).
    split; [| split]; cbn [now awaiting].
    + rewrite H1. exact Hs.
    + intros f m Hm. apply (He f m), H3, Hm.
    + intros k Hin. rewrite H2. destruct (decide ("filePath" = k)) as [<- | Hne].
      * rewrite lookup_insert_eq. eauto.
      * rewrite lookup_insert_ne by assumption. auto.
  - cbn [fst snd]. rewrite app_nil_r. split; [| split]; cbn [now awaiting].
    + exact Hs.
    + intros f m Hm. unfold resetToDefaults in Hm. cbn [errors setErrors] in Hm.
      rewrite lookup_empty in Hm. discriminate.
    + intros k Hin. apply defaults_keys. exact Hin.
  - destruct (negb (truthy (prop (config st) "port"))); cbn [fst snd];
      (split; [| split]); cbn [now awaiting]; cbn; auto.
    + rewrite app_nil_r. exact Hs.
    + intros H. apply elem_of_app. left. auto.
  - destruct (negb (truthy (prop (config st) "port"))); cbn [fst snd];
      (split; [| split]); cbn [now awaiting]; cbn; auto.
    + rewrite app_nil_r. exact Hs.
    + intros H. apply elem_of_app. left. auto.
Qed.

(** A continuation that is not the one taken off the list is still
    waiting. *)
Lemma still_awaiting (ks : list continuation) (i : nat) (k : continuation) :
  ks !! i = Some k -> k <> AfterSave -> AfterSave ∈ ks -> AfterSave ∈ delete i ks.
Proof.
  revert i. induction ks as [| k0 ks IH]; intros i Hi Hk Hin; [inversion Hin |].
  destruct i as [| i]; cbn in *.
  - injection Hi as ->. apply elem_of_cons in Hin as [Heq | Hin]; [congruence | exact Hin].
  - apply elem_of_cons in Hin as [-> | Hin]; [left |].
    right. exact (IH i Hi Hk Hin).
Qed.

Lemma occur_wellKept (o : occurrence) (l : live) : wellKept l -> wellKept (occur o l).
Proof.
  intros H. destruct l as [st ks]. destruct o as [ev | i r]; cbn [occur now awaiting].
  - pose proof (begin_wellKept ev st ks H) as H'.
    destruct (begin ev st) as [st1 started]. exact H'.
  - destruct (ks !! i) as [k |] eqn:Hi; [| exact H].
    destruct H as (Hs & He & Hk). cbn [now awaiting] in *.
    destruct k; (split; [| split]); cbn [now awaiting resume]; cbn; auto.
    + discriminate.
    + intros Hsub. apply (still_awaiting ks i AfterPort Hi); [discriminate | auto].
Qed.

Lemma unfolding_wellKept (os : list occurrence) (l : live) :
  wellKept l -> wellKept (unfolding os l).
Proof.
  revert l. induction os as [| o os IH]; intros l H; [exact H |].
  apply IH, occur_wellKept. exact H.
Qed.

(** A value without a numeric reading is rejected under every range. *)
Lemma no_number_is_rejected (f : string) (r : range) (v : value) :
  get ranges f = Some r -> isNaN (parseFloat v) = true -> validateField f v = false.
Proof. intros Hr Hn. unfold validateField. rewrite Hr, Hn. reflexivity. Qed.

End AppRunFacts.

(** X7. The asynchronous handlers are taken as they run: up to their
    [await], and on from it when the reply arrives, with other events in
    between.  Whatever the user does, in whatever order the replies of the
    back end arrive and whatever they are, from the initial state on: the
    submitting flag is up only while a save request waits for its reply,
    and so is down whenever nothing is awaited; the only fields that carry
    an error are the five ranged ones, each with the message that spells
    out its range; and no key of the configuration other than [port] is
    ever missing.  A handler whose reply arrives at once ends in the state
    of the handler run in one piece. *)
Theorem X7_every_interleaving_keeps_the_form_well_formed
  (fetch : App.request -> App.response) (os : list AppRun.occurrence)
  (ev : App.event) (st0 : App.state) :
  let l := AppRun.unfolding os AppRun.initialLive in
  let st := AppRun.now l in
  (App.isSubmitting st = true -> AppRun.AfterSave ∈ AppRun.awaiting l) /\
  (AppRun.awaiting l = [] -> App.isSubmitting st = false) /\
  (forall f m, App.errors st !! f = Some m ->
     f ∈ App.numericInputs /\
     exists r, App.get App.ranges f = Some r /\
               m = "Must be between " +:+ App.label r) /\
  (forall k, k ∈ AppRun.configKeys -> is_Some (App.config st !! k)) /\
  match AppRun.begin ev st0 with
  | (st1, Some (req, k)) =>
      AppRun.settle (App.dispatch fetch ev st0) = AppRun.resume k (fetch req) st1 /\
      AppRun.sent (App.dispatch fetch ev st0) = [req]
  | (st1, None) =>
      AppRun.settle (App.dispatch fetch ev st0) = st1 /\
      AppRun.sent (App.dispatch fetch ev st0) = []
  end.
Proof.
  intros l st.
  destruct (AppRunFacts.unfolding_wellKept os AppRun.initialLive
              AppRunFacts.initial_wellKept) as (Hs & He & Hk).
  fold l in Hs, He, Hk. fold st in Hs, He, Hk.
  split; [exact Hs |]. split; [| split; [| split; [exact Hk |]]].
  - intros Hnone. destruct (App.isSubmitting st) eqn:E; [| reflexivity].
    specialize (Hs eq_refl). rewrite Hnone in Hs. inversion Hs.
  - intros f m Hm. destruct (He f m Hm) as (r & Hr & ->).
    split; [| eauto].
    destruct (decide (f ∈ App.keys App.ranges)) as [Hin | Hn].
    + exact Hin.
    + rewrite (ObjectFacts.get_absent _ _ Hn) in Hr. discriminate.
  - apply AppRunFacts.begin_then_reply.
Qed.

Lemma X7_witness :
  let l := AppRun.unfolding
             [AppRun.Fired App.Submit;
              AppRun.Fired (App.Change "rfg" "99");
              AppRun.Replied 0 (App.HttpOk ∅)] AppRun.initialLive in
  let l1 := AppRun.unfolding [AppRun.Fired App.Submit] AppRun.initialLive in
  App.isSubmitting (AppRun.now l1) = true /\
  AppRun.awaiting l1 = [AppRun.AfterSave] /\
  AppRun.awaiting l = [] /\
  App.isSubmitting (AppRun.now l) = false.
Proof.
  intros l l1.
  destruct (X7_every_interleaving_keeps_the_form_well_formed
              (fun _ => App.HttpOk ∅)
              [AppRun.Fired App.Submit; AppRun.Fired (App.Change "rfg" "99");
               AppRun.Replied 0 (App.HttpOk ∅)] App.Submit App.initialState)
    as (_ & H & _).
  split; [vm_compute; reflexivity |]. split; [vm_compute; reflexivity |].
  split; [vm_compute; reflexivity |].
  apply H. vm_compute. reflexivity.
Defined.

(** X8. A ranged field that is missing from the configuration, or holds
    [undefined], [null], a boolean, the empty text or a text of blanks
    only, has no numeric reading: [validateAll] files it under its name,
    and a submit issues no request and leaves the configuration alone. *)
Theorem X8_a_field_without_a_number_blocks_saving
  (fetch : App.request -> App.response) (st : App.state) (f : string) (k : nat) :
  f ∈ App.numericInputs ->
  App.config st !! f = None \/
  App.config st !! f = Some VUndefined \/
  App.config st !! f = Some VNull \/
  (exists b, App.config st !! f = Some (VBool b)) \/
  App.config st !! f = Some (VString (Spec.blanks k)) ->
  is_Some (App.newErrors (App.config st) !! f) /\
  AppRun.sent (App.handleSubmit fetch st) = [] /\
  App.config (AppRun.settle (App.handleSubmit fetch st)) = App.config st.
Proof.
  intros Hf Hv.
  assert (is_Some (App.get App.ranges f)) as [r Hr].
  { vm_compute in Hf.
    repeat (apply elem_of_cons in Hf as [-> | Hf]; [eexists; reflexivity |]).
    inversion Hf. }
  assert (isNaN (parseFloat (App.prop (App.config st) f)) = true) as Hn.
  { unfold App.prop.
    destruct Hv as [-> | [-> | [-> | [[b ->] | ->]]]]; try reflexivity.
    cbn [default parseFloat]. apply JSFacts.parseFloatString_blanks. }
  assert (is_Some (App.newErrors (App.config st) !! f)) as Hsome.
  { rewrite ValidationFacts.App_newErrors_lookup, Hr.
    rewrite (AppRunFacts.no_number_is_rejected f r _ Hr Hn). eauto. }
  split; [exact Hsome |].
  rewrite (SubmitFacts.App_handleSubmit_invalid fetch st f Hsome).
  split; reflexivity.
Qed.

Lemma X8_witness :
  let fetch := fun _ : App.request => App.HttpOk ∅ in
  let st := App.updateConfig "fs" (VString "   ") App.initialState in
  is_Some (App.newErrors (App.config st) !! "fs") /\
  AppRun.sent (App.handleSubmit fetch st) = [] /\
  App.config (AppRun.settle (App.handleSubmit fetch st)) = App.config st.
Proof.
  apply (X8_a_field_without_a_number_blocks_saving
           (fun _ => App.HttpOk ∅)
           (App.updateConfig "fs" (VString "   ") App.initialState) "fs" 3).
  - apply (bool_decide_unpack _). vm_compute. exact I.
  - right; right; right; right. vm_compute. reflexivity.
Defined.

(** ** The wizard step [RFConfiguration] *)

Module RFFacts.
Import JS RFConfiguration RFRun.

Lemma inputs_cases (name : string) :
  name ∈ inputs ->
  name = "fc" \/ name = "fs" \/ name = "rfg" \/ name = "ifg" \/ name = "bbg".
Proof.
  intros H. vm_compute in H.
  repeat (apply elem_of_cons in H as [-> | H]; [tauto |]). inversion H.
Qed.

Lemma input_has_rule (name : string) :
  name ∈ inputs -> is_Some (App.get validationRules name).
Proof.
  intros H. apply inputs_cases in H as [-> | [-> | [-> | [-> | ->]]]];
    eexists; reflexivity.
Qed.

Lemma rule_is_input (name : string) (r : rule) :
  App.get validationRules name = Some r -> name ∈ inputs.
Proof.
  intros H. destruct (decide (name ∈ App.keys validationRules)) as [Hin | Hn].
  - exact Hin.
  - rewrite (ObjectFacts.get_absent _ _ Hn) in H. discriminate.
Qed.

Lemma allTouched_lookup (name : string) :
  allTouched !! name = Some true <-> name ∈ inputs.
Proof.
  split.
  - intros H. destruct (decide (name ∈ inputs)) as [Hin | Hn]; [exact Hin |].
    exfalso. unfold allTouched in H.
    rewrite !lookup_insert_ne in H
      by (intros <-; apply Hn; apply (bool_decide_unpack _); vm_compute; exact I).
    rewrite lookup_empty in H. discriminate.
  - intros H. apply inputs_cases in H as [-> | [-> | [-> | [-> | ->]]]]; reflexivity.
Qed.

(** The entries that a failed submit files are the verdicts on the texts. *)
Lemma newErrors_verdict (d : gmap string string) (name : string) :
  name ∈ inputs ->
  match newErrors d !! name with Some e => e | None => None end
    = validateField name (field d name).
Proof.
  intros H. destruct (input_has_rule name H) as [r Hr].
  rewrite ValidationFacts.RF_newErrors_lookup, Hr.
  destruct (validateField name (field d name)) as [m |] eqn:E; [| reflexivity].
  rewrite (DomainFacts.RF_message_nonempty _ _ _ E). reflexivity.
Qed.

Lemma newErrors_only_inputs (d : gmap string string) (name : string) :
  is_Some (newErrors d !! name) -> name ∈ inputs.
Proof.
  rewrite ValidationFacts.RF_newErrors_lookup.
  destruct (App.get validationRules name) as [r |] eqn:E.
  - intros _. exact (rule_is_input name r E).
  - intros [x Hx]. discriminate.
Qed.

Lemma initial_consistent : consistent initialState.
Proof.
  split; [| split]; intros name H; cbn [touched errors initialState] in H;
    rewrite lookup_empty in H; [discriminate | destruct H; discriminate | discriminate].
Qed.

Lemma handleChange_consistent (name value : string) (st : state) :
  consistent st -> consistent (handleChange name value st).
Proof.
  intros (Ht & He & Hv). unfold handleChange. split; [exact Ht | split].
  - intros n. cbn [errors touched].
    destruct (touched st !! name) as [[] |] eqn:E; cbn [from_option id]; try apply He.
    destruct (decide (n = name)) as [-> | Hn].
    + intros _. exact E.
    + rewrite lookup_insert_ne by congruence. apply He.
  - intros n Hn. specialize (Hv n Hn). cbn [touched] in Hn.
    unfold errorOf, field in *. cbn [errors formData].
    destruct (decide (n = name)) as [-> | Hne].
    + rewrite Hn. cbn [from_option id]. rewrite !lookup_insert_eq. reflexivity.
    + rewrite (lookup_insert_ne (formData st)) by congruence.
      destruct (default false (touched st !! name));
        [rewrite lookup_insert_ne by congruence |]; exact Hv.
Qed.

Lemma handleBlur_consistent (name : string) (st : state) :
  name ∈ inputs -> consistent st ->
  consistent (handleBlur name (field (formData st) name) st).
Proof.
  intros Hin (Ht & He & Hv). unfold handleBlur. split; [| split]; intros n;
    cbn [touched errors formData]; unfold errorOf; cbn [errors formData];
    destruct (decide (n = name)) as [-> | Hne];
    rewrite ?lookup_insert_eq, ?lookup_insert_ne by congruence; auto.
  intros Hn. apply (Hv n Hn).
Qed.

Lemma handleSubmit_consistent (st : state) :
  consistent st -> consistent (fst (handleSubmit st)).
Proof.
  intros H. unfold handleSubmit.
  destruct (bool_decide (0 < size (newErrors (formData st)))%nat); [| exact H].
  cbn [fst]. split; [| split]; intros n; cbn [touched errors formData].
  - apply allTouched_lookup.
  - intros Hs. apply allTouched_lookup. exact (newErrors_only_inputs _ _ Hs).
  - intros Hn. apply allTouched_lookup in Hn. unfold errorOf. cbn [errors formData].
    apply newErrors_verdict. exact Hn.
Qed.

Lemma dispatch_consistent (ev : event) (st : state) :
  raisable ev -> consistent st -> consistent (fst (dispatch ev st)).
Proof.
  intros Hev H. destruct ev as [name value | name | m |]; cbn [dispatch fst].
  - apply handleChange_consistent. exact H.
  - apply handleBlur_consistent; [exact Hev | exact H].
  - destruct H as (Ht & He & Hv). split; [exact Ht | split; [exact He |]].
    intros n Hn. specialize (Hv n Hn). cbn [touched] in Hn.
    unfold errorOf, field in *. cbn [errors formData].
    rewrite lookup_insert_ne; [exact Hv |].
    intros <-. specialize (Ht _ Hn). apply inputs_cases in Ht.
    destruct Ht as [Hc | [Hc | [Hc | [Hc | Hc]]]]; discriminate Hc.
  - apply handleSubmit_consistent. exact H.
Qed.

Lemma after_consistent (evs : list event) (st : state) :
  Forall raisable evs -> consistent st -> consistent (after evs st).
Proof.
  intros Hevs. revert st. induction Hevs as [| ev evs Hev _ IH]; intros st H;
    [exact H |].
  apply IH, dispatch_consistent; assumption.
Qed.

(** The relational operators on numbers that are not [NaN]. *)
Lemma not_lt_is_ge (x : number) (b : Z) :
  isNaN x = false -> lt x (lit b) = false -> ge x (lit b) = true.
Proof.
  destruct x as [| [] | a]; cbn; try discriminate; try reflexivity.
  intros _ H. apply negb_false_iff in H. exact H.
Qed.

Lemma not_gt_is_le (x : number) (b : Z) :
  isNaN x = false -> gt x (lit b) = false -> le x (lit b) = true.
Proof.
  destruct x as [| [] | a]; cbn; try discriminate; try reflexivity.
  intros _ H. apply negb_false_iff in H. exact H.
Qed.

(** Every bound of the rules is an integer literal. *)
Lemma rule_bounds (name : string) (r : rule) :
  App.get validationRules name = Some r ->
  exists lo hi, min r = lit lo /\ max r = lit hi.
Proof.
  intros H. pose proof (rule_is_input name r H) as Hin.
  apply inputs_cases in Hin as [-> | [-> | [-> | [-> | ->]]]];
    injection H as <-; eexists _, _; split; reflexivity.
Qed.

(** What a valid text reads as. *)
Lemma valid_text (name value : string) (r : rule) :
  App.get validationRules name = Some r ->
  validateField name value = None ->
  value <> "" /\
  isNaN (parseFloatString value) = false /\
  ge (parseFloatString value) (min r) = true /\
  le (parseFloatString value) (max r) = true.
Proof.
  intros Hr. destruct (rule_bounds name r Hr) as (lo & hi & Hlo & Hhi).
  unfold validateField. rewrite Hr, Hlo, Hhi.
  destruct (String.eqb_spec value ""); [discriminate |].
  destruct (isNaN (parseFloatString value)) eqn:En; [discriminate |].
  destruct (lt (parseFloatString value) (lit lo)) eqn:El; [discriminate |].
  destruct (gt (parseFloatString value) (lit hi)) eqn:Eg; [discriminate |].
  intros _. split; [assumption |]. split; [reflexivity |].
  split; [apply not_lt_is_ge | apply not_gt_is_le]; assumption.
Qed.

Lemma submission_lookup (d : gmap string string) (name : string) :
  name ∈ inputs ->
  submission d !! name = Some (VNumber (parseFloatString (field d name))).
Proof.
  intros H. apply inputs_cases in H as [-> | [-> | [-> | [-> | ->]]]]; reflexivity.
Qed.

End RFFacts.

(** X9. In the wizard, whatever the user types, leaves, selects or
    submits, starting from the empty form: a field has an entry in
    [errors] only once it is touched, a touched field's error is the
    verdict of the validator on the text the field holds now, and so the
    class of its input is the error class exactly when that text is
    invalid; an untouched input keeps the plain class. *)
Theorem X9_the_wizard_shows_the_verdict_on_the_current_text
  (evs : list RFRun.event) (name : string) :
  Forall RFRun.raisable evs ->
  let st := RFRun.after evs RFConfiguration.initialState in
  (is_Some (RFConfiguration.errors st !! name) ->
     RFConfiguration.touched st !! name = Some true) /\
  (RFConfiguration.touched st !! name = Some true ->
     name ∈ RFRun.inputs /\
     RFRun.errorOf st name
       = RFConfiguration.validateField name
           (RFConfiguration.field (RFConfiguration.formData st) name) /\
     RFRun.getInputClassName name st
       = match RFConfiguration.validateField name
                 (RFConfiguration.field (RFConfiguration.formData st) name) with
         | Some _ => "input-field error"
         | None => "input-field success"
         end) /\
  (RFConfiguration.touched st !! name <> Some true ->
     RFRun.getInputClassName name st = "input-field").
Proof.
  intros Hevs st.
  destruct (RFFacts.after_consistent evs RFConfiguration.initialState Hevs
              RFFacts.initial_consistent) as (Ht & He & Hv).
  fold st in Ht, He, Hv. split; [apply He | split].
  - intros Hn. split; [exact (Ht name Hn) |]. specialize (Hv name Hn).
    split; [exact Hv |]. unfold RFRun.getInputClassName. rewrite Hn. cbn.
    unfold RFRun.errorOf in Hv.
    destruct (RFConfiguration.errors st !! name) as [[m |] |]; subst;
      rewrite <- ?Hv; try reflexivity.
    symmetry in Hv. rewrite (DomainFacts.RF_message_nonempty _ _ _ Hv). reflexivity.
  - intros Hn. unfold RFRun.getInputClassName.
    destruct (RFConfiguration.touched st !! name) as [[] |]; [contradiction | |];
      reflexivity.
Qed.

Lemma X9_witness :
  let st := RFRun.after [RFRun.Blur "fc"; RFRun.Change "fc" "915000000";
                         RFRun.Change "rfg" "99"] RFConfiguration.initialState in
  RFRun.getInputClassName "fc" st = "input-field success" /\
  RFRun.getInputClassName "rfg" st = "input-field".
Proof.
  intros st. subst st.
  assert (Forall RFRun.raisable
            [RFRun.Blur "fc"; RFRun.Change "fc" "915000000"; RFRun.Change "rfg" "99"])
    as Hevs.
  { repeat constructor; apply (bool_decide_unpack _); vm_compute; exact I. }
  split.
  - destruct (X9_the_wizard_shows_the_verdict_on_the_current_text _ "fc" Hevs)
      as (_ & H & _).
    destruct (H ltac:(vm_compute; reflexivity)) as (_ & _ & ->).
    vm_compute. reflexivity.
  - destruct (X9_the_wizard_shows_the_verdict_on_the_current_text _ "rfg" Hevs)
      as (_ & _ & H).
    apply H. vm_compute. discriminate.
Defined.

(** X10. The wizard calls [onSubmit] exactly when the validator accepts
    the text of each of the five inputs; the state is then left as it is,
    and what [onSubmit] receives is the modulation together with, for
    every input, a Number that is not [NaN] and lies between the bounds of
    the rule, read from a non-empty text. *)
Theorem X10_the_wizard_submits_only_numbers_in_range
  (st : RFConfiguration.state) :
  (is_Some (snd (RFConfiguration.handleSubmit st)) <->
     forall name, name ∈ RFRun.inputs ->
       RFConfiguration.validateField name
         (RFConfiguration.field (RFConfiguration.formData st) name) = None) /\
  (forall sub, snd (RFConfiguration.handleSubmit st) = Some sub ->
     fst (RFConfiguration.handleSubmit st) = st /\
     sub !! "modulation"
       = Some (VString (RFConfiguration.field (RFConfiguration.formData st) "modulation")) /\
     forall name r, App.get RFConfiguration.validationRules name = Some r ->
       exists x, sub !! name = Some (VNumber x) /\
                 x = parseFloatString
                       (RFConfiguration.field (RFConfiguration.formData st) name) /\
                 RFConfiguration.field (RFConfiguration.formData st) name <> "" /\
                 isNaN x = false /\
                 ge x (RFConfiguration.min r) = true /\
                 le x (RFConfiguration.max r) = true).
Proof.
  set (d := RFConfiguration.formData st).
  assert (size (RFConfiguration.newErrors d) = 0%nat <->
          forall name, name ∈ RFRun.inputs ->
            RFConfiguration.validateField name (RFConfiguration.field d name) = None)
    as Hvalid.
  { rewrite ValidationFacts.size_zero_iff. split.
    - intros Hz name Hin. rewrite <- RFFacts.newErrors_verdict by exact Hin.
      rewrite Hz. reflexivity.
    - intros Hall name.
      destruct (RFConfiguration.newErrors d !! name) as [e |] eqn:E; [| reflexivity].
      assert (name ∈ RFRun.inputs) as Hin
        by (apply (RFFacts.newErrors_only_inputs d); rewrite E; eauto).
      pose proof (RFFacts.newErrors_verdict d name Hin) as Hv.
      rewrite E, (Hall name Hin) in Hv. subst e.
      rewrite ValidationFacts.RF_newErrors_lookup in E.
      destruct (App.get RFConfiguration.validationRules name); [| discriminate].
      rewrite (Hall name Hin) in E. discriminate. }
  unfold RFConfiguration.handleSubmit. fold d.
  destruct (decide (size (RFConfiguration.newErrors d) = 0%nat)) as [Hz | Hnz].
  - rewrite bool_decide_eq_false_2 by lia. cbn [fst snd]. split.
    + split; [intros _; apply Hvalid; exact Hz | eauto].
    + intros sub [= <-]. split; [reflexivity |]. split; [reflexivity |].
      intros name r Hr. pose proof (RFFacts.rule_is_input name r Hr) as Hin.
      destruct (RFFacts.valid_text name _ r Hr (proj1 Hvalid Hz name Hin))
        as (Hne & Hnan & Hge & Hle).
      eexists. split; [apply RFFacts.submission_lookup; exact Hin |].
      repeat split; assumption.
  - rewrite bool_decide_eq_true_2 by lia. cbn [fst snd]. split.
    + split; [intros [x Hx]; discriminate |].
      intros Hall. exfalso. apply Hnz, Hvalid, Hall.
    + intros sub Hs. discriminate.
Qed.

Lemma X10_witness :
  let d := <["rfg" := "14.5"]> (<["fc" := "915000000"]> (<["fs" := "2000000"]>
           (<["ifg" := "20"]> (<["bbg" := "30"]>
              (RFConfiguration.formData RFConfiguration.initialState))))) in
  let st := {| RFConfiguration.formData := d; RFConfiguration.errors := ∅;
               RFConfiguration.touched := ∅ |} in
  exists x, RFConfiguration.submission d !! "rfg" = Some (VNumber x) /\
            isNaN x = false /\ ge x (lit 0) = true /\ le x (lit 47) = true.
Proof.
  intros d st.
  destruct (X10_the_wizard_submits_only_numbers_in_range st) as [_ H].
  destruct (H (RFConfiguration.submission d) ltac:(vm_compute; reflexivity))
    as (_ & _ & Hall).
  destruct (Hall "rfg" _ eq_refl) as (x & H1 & _ & _ & H2 & H3 & H4).
  exists x. repeat split; assumption.
Defined.

(** ** Blank and empty texts *)

Module BlankFacts.
Import JS Spec.

Lemma blanks_app_cons (k : nat) (s : string) :
  blanks (S k) +:+ s = String " " (blanks k +:+ s).
Proof. reflexivity. Qed.

(** Leading blanks are stripped before a number is read. *)
Lemma trimStart_blanks_app (k : nat) (s : string) :
  trimStart (blanks k +:+ s) = trimStart s.
Proof.
  induction k as [| k IH]; [reflexivity |].
  rewrite blanks_app_cons. rewrite <- IH. reflexivity.
Qed.

Lemma parseFloatString_blanks_app (k : nat) (s : string) :
  parseFloatString (blanks k +:+ s) = parseFloatString s.
Proof. unfold parseFloatString. rewrite trimStart_blanks_app. reflexivity. Qed.

Lemma blanks_app_nonempty (k : nat) (s : string) :
  s <> "" -> String.eqb (blanks k +:+ s) "" = false.
Proof.
  intros Hs. destruct k; [| reflexivity].
  change (blanks 0 +:+ s) with s.
  destruct (String.eqb_spec s ""); [contradiction | reflexivity].
Qed.

End BlankFacts.

(** X11. Leading blanks do not matter to validation: a text with blanks in
    front gets the verdict of the text without them from the main form
    and, unless nothing follows the blanks, from the wizard, which then
    submits the same number.  The wizard tells the empty text, which it
    reports as required, from a text of blanks, which it reports as not a
    number. *)
Theorem X11_leading_blanks_are_ignored (f : string) (k : nat) (s : string) :
  App.validateField f (VString (Spec.blanks k +:+ s)) = App.validateField f (VString s) /\
  parseFloatString (Spec.blanks k +:+ s) = parseFloatString s /\
  (s <> "" ->
     RFConfiguration.validateField f (Spec.blanks k +:+ s)
       = RFConfiguration.validateField f s) /\
  RFConfiguration.validateField f "" = Some "This field is required" /\
  RFConfiguration.validateField f (Spec.blanks (S k)) = Some "Must be a valid number".
Proof.
  split; [| split; [| split; [| split]]].
  - unfold App.validateField. cbn [parseFloat].
    rewrite BlankFacts.parseFloatString_blanks_app. reflexivity.
  - apply BlankFacts.parseFloatString_blanks_app.
  - intros Hs. unfold RFConfiguration.validateField.
    rewrite BlankFacts.blanks_app_nonempty by exact Hs.
    destruct (String.eqb_spec s ""); [contradiction |].
    rewrite BlankFacts.parseFloatString_blanks_app. reflexivity.
  - reflexivity.
  - unfold RFConfiguration.validateField.
    change (String.eqb (Spec.blanks (S k)) "") with false. cbv iota.
    rewrite JSFacts.parseFloatString_blanks. reflexivity.
Qed.

Lemma X11_witness :
  RFConfiguration.validateField "rfg" (Spec.blanks 2 +:+ "48")
    = RFConfiguration.validateField "rfg" "48".
Proof.
  destruct (X11_leading_blanks_are_ignored "rfg" 2 "48") as (_ & _ & H & _).
  apply H. discriminate.
Defined.

(** ** The protocol selector *)

Module SelectorFacts.
Import StreamingProtocolSelector SelectorRun.

Lemma dispatch_file (ev : event) (st : state) :
  (forall sel, sel ∈ snd (dispatch ev st) ->
     (protocolId sel = "file" <-> is_Some (file sel))) /\
  fst (dispatch ev st)
    = match last (omap file (snd (dispatch ev st))) with
      | Some f => Some f
      | None => st
      end.
Proof.
  destruct ev as [id | [f |]]; cbn [dispatch handleFileChange fst snd].
  - unfold handleProtocolSelect. destruct (String.eqb_spec id "file") as [-> | Hne].
    + split; [intros sel Hin; inversion Hin | reflexivity].
    + split; [| reflexivity]. intros sel Hin.
      apply list_elem_of_singleton in Hin as ->. cbn.
      split; [intros H; contradiction | intros [x Hx]; discriminate].
  - split; [| reflexivity]. intros sel Hin.
    apply list_elem_of_singleton in Hin as ->. cbn. split; eauto.
  - split; [intros sel Hin; inversion Hin | reflexivity].
Qed.

End SelectorFacts.

(** X12. Over any sequence of clicks on the protocol cards and changes of
    the file input: a call of [onSelect] names the File protocol exactly
    when it carries a file, so File is never selected without one; and the
    file that the step remembers is the one of the latest such call, or
    the one it had when no such call was made. *)
Theorem X12_file_is_only_selected_with_a_file
  (evs : list SelectorRun.event) (st : StreamingProtocolSelector.state) :
  (forall sel, sel ∈ snd (SelectorRun.run evs st) ->
     (StreamingProtocolSelector.protocolId sel = "file"
      <-> is_Some (StreamingProtocolSelector.file sel))) /\
  fst (SelectorRun.run evs st)
    = match last (omap StreamingProtocolSelector.file (snd (SelectorRun.run evs st))) with
      | Some f => Some f
      | None => st
      end.
Proof.
  revert st. induction evs as [| ev evs IH]; intros st.
  - split; [intros sel Hin; inversion Hin | reflexivity].
  - cbn [SelectorRun.run].
    destruct (SelectorFacts.dispatch_file ev st) as [Hsel Hst].
    destruct (SelectorRun.dispatch ev st) as [st1 out1]. cbn [fst snd] in *.
    destruct (IH st1) as [Hsel2 Hst2].
    destruct (SelectorRun.run evs st1) as [st2 out2]. cbn [fst snd] in *.
    split.
    + intros sel Hin. apply elem_of_app in Hin as [Hin | Hin]; auto.
    + rewrite omap_app, last_app, Hst2.
      destruct (last (omap StreamingProtocolSelector.file out2)); [reflexivity |].
      exact Hst.
Qed.

(** ** The frequencies of the summary *)

Module DisplayFacts.
Import JS JSFacts ConfigurationDisplay.

(** The integer that [rne] picks is within half a unit of the quotient. *)
Lemma rne_bound (N D : Z) :
  0 < D -> - D <= 2 * (rne N D * D - N) <= D.
Proof.
  intros HD. unfold rne.
  pose proof (Z.div_mod N D ltac:(lia)) as Hdm.
  pose proof (Z.mod_pos_bound N D HD) as Hr.
  destruct (Z.compare_spec (2 * (N mod D)) D) as [He | Hl | Hg];
    [destruct (Z.even (N / D)) | |]; nia.
Qed.

Lemma binade_range (n d : Z) :
  0 < d -> d <= n < d * 2 ^ 40 -> -1 <= binade n d <= 40.
Proof.
  intros Hd [Hlo Hhi]. unfold binade.
  assert (Z.log2 d <= Z.log2 n) by (apply Z.log2_le_mono; exact Hlo).
  assert (Z.log2 n <= 40 + Z.log2 d).
  { rewrite <- Z.log2_mul_pow2 by lia. apply Z.log2_le_mono. lia. }
  destruct (_ <=? _); lia.
Qed.

(** The quotient of two integers as a Number, when it is between 1 and
    [2^40]: a multiple [k] of [2^-s] within half a step of the quotient. *)
Lemma round_pos_quotient (n d : Z) :
  0 < d -> d <= n < d * 2 ^ 40 ->
  exists k s,
    12 <= s <= 53 /\
    0 <= k <= 2 ^ 41 * 2 ^ s /\
    - d <= 2 * (k * d - n * 2 ^ s) <= d /\
    round_pos n d = Fin (Qred (Qmake k (Z.to_pos (2 ^ s)))).
Proof.
  intros Hd Hn. pose proof (binade_range n d Hd Hn) as He.
  unfold round_pos. set (e := binade n d) in *.
  rewrite Z.max_l by lia.
  rewrite (pow2_nonpos (e - 52)) by lia.
  rewrite (pow2_nonneg (- (e - 52))) by lia.
  rewrite !Z.mul_1_r.
  set (s := - (e - 52)). set (P := 2 ^ s).
  assert (0 < P) as HP by (apply Z.pow_pos_nonneg; lia).
  pose proof (rne_bound (n * P) d Hd) as Hk.
  set (k := rne (n * P) d) in *.
  assert (0 <= k) as Hk0 by nia.
  assert (k <= 2 ^ 41 * P) as Hk1.
  { change (2 ^ 41) with (2 * 2 ^ 40). nia. }
  assert (2 ^ 41 * P < 2 ^ 1024 * P) as Hbig.
  { apply Z.mul_lt_mono_pos_r; [exact HP |]. apply Z.pow_lt_mono_r; lia. }
  destruct (Z.leb_spec (2 ^ 1024 * P) k) as [Hover | _]; [lia |].
  exists k, s. repeat split; try lia.
Qed.

(** The three decimals that [toFixed] finds are exact when the quotient
    has no more than three. *)
Lemma fixed3_of_quotient (k s t : Z) :
  12 <= s -> 0 <= k -> -500 <= 1000 * k - t * 2 ^ s <= 500 ->
  Qfloor (Qabs (Qred (Qmake k (Z.to_pos (2 ^ s)))) * inject_Z (10 ^ Z.of_nat 3) + (1 # 2))
    = t.
Proof.
  intros Hs Hk Hd. set (P := 2 ^ s) in *.
  assert (2 ^ 12 <= P) as HP by (apply Z.pow_le_mono_r; lia).
  change (2 ^ 12) with 4096 in HP.
  assert (0 <= Qred (Qmake k (Z.to_pos P)))%Q as Hpos.
  { rewrite Qred_correct. unfold Qle. simpl. lia. }
  rewrite (Qabs_pos _ Hpos), Qred_correct.
  unfold Qfloor, Qplus, Qmult, inject_Z. cbn [Qnum Qden].
  rewrite !Pos2Z.inj_mul, Z2Pos.id by lia.
  change (10 ^ Z.of_nat 3) with 1000.
  symmetry. apply (Z.div_unique _ _ _ (2 * (1000 * k - t * P) + P)); lia.
Qed.

(** [toFixed(3)] of the quotient of two integers that has three decimals
    at most. *)
Lemma toFixed3_quot (n t : Z) (d : positive) :
  Z.pos d <= n < Z.pos d * 2 ^ 40 -> n * 1000 = t * Z.pos d ->
  toFixed (quot (lit n) d) 3
    = integerNumeral (t / 1000) +:+ "." +:+ numeral (digitsOf 3 t).
Proof.
  intros Hn Ht. unfold quot, lit, inject_Z. cbn [Qnum Qden].
  rewrite Z.mul_1_l. unfold round_ratio.
  destruct (Z.compare_spec n 0) as [H0 | H0 | _]; [lia | lia |].
  destruct (round_pos_quotient n (Z.pos d) ltac:(lia) Hn)
    as (k & s & Hs & Hk & Hr & ->).
  assert (-500 <= 1000 * k - t * 2 ^ s <= 500) as Hd.
  { assert (Z.pos d * (1000 * k - t * 2 ^ s) = 1000 * (k * Z.pos d - n * 2 ^ s)) as E.
    { replace (1000 * (k * Z.pos d - n * 2 ^ s))
        with (1000 * k * Z.pos d - (n * 1000) * 2 ^ s) by ring.
      rewrite Ht. ring. }
    nia. }
  assert (0 < 2 ^ s) as HP by (apply Z.pow_pos_nonneg; lia).
  assert (0 <= Qred (Qmake k (Z.to_pos (2 ^ s))))%Q as Hpos.
  { rewrite Qred_correct. unfold Qle. simpl. lia. }
  unfold toFixed.
  assert (Qle_bool (inject_Z (10 ^ 21)) (Qabs (Qred (Qmake k (Z.to_pos (2 ^ s))))) = false)
    as ->.
  { apply not_true_is_false. intros H. apply Qle_bool_iff in H.
    rewrite (Qabs_pos _ Hpos), Qred_correct in H. unfold Qle in H. simpl in H.
    rewrite Z2Pos.id in H by lia.
    assert (2 ^ 41 < 10 ^ 21) by reflexivity. nia. }
  assert ((Qnum (Qred (Qmake k (Z.to_pos (2 ^ s)))) <? 0) = false) as ->.
  { apply Z.ltb_ge. unfold Qle in Hpos. simpl in Hpos. lia. }
  rewrite (fixed3_of_quotient k s t) by lia.
  change (10 ^ Z.of_nat 3) with 1000. reflexivity.
Qed.

(** Below 1 kHz the value is written as it is. *)
Lemma hertz_exhaustive :
  forallb (fun n => String.eqb (formatFrequency (lit n)) (integerNumeral n +:+ " Hz"))
          (map Z.of_nat (seq 0 1000)) = true.
Proof. vm_compute. reflexivity. Qed.

Lemma ge_lit (n b : Z) : ge (lit n) (lit b) = (b <=? n).
Proof. apply Qle_bool_inject. Qed.

End DisplayFacts.

(** X13. [formatFrequency] shows a whole number of hertz below [2^53]
    exactly, with the unit of its magnitude, whenever three decimals can
    hold it: from 1 GHz on, a multiple of 1 MHz as its gigahertz with
    three decimals; from 1 MHz to 1 GHz, a multiple of 1 kHz as its
    megahertz with three decimals; from 1 kHz to 1 MHz, every frequency as
    its kilohertz with three decimals; and below 1 kHz the hertz
    themselves.  The division and [toFixed] round, but never to another
    digit. *)
Theorem X13_formatFrequency_is_exact (n : Z) :
  (1000000000 <= n < 2 ^ 53 -> n mod 1000000 = 0 ->
     ConfigurationDisplay.formatFrequency (lit n)
       = (integerNumeral (n / 1000000000) +:+ "."
          +:+ numeral (digitsOf 3 (n / 1000000))) +:+ " GHz") /\
  (1000000 <= n < 1000000000 -> n mod 1000 = 0 ->
     ConfigurationDisplay.formatFrequency (lit n)
       = (integerNumeral (n / 1000000) +:+ "."
          +:+ numeral (digitsOf 3 (n / 1000))) +:+ " MHz") /\
  (1000 <= n < 1000000 ->
     ConfigurationDisplay.formatFrequency (lit n)
       = (integerNumeral (n / 1000) +:+ "." +:+ numeral (digitsOf 3 n)) +:+ " kHz") /\
  (0 <= n < 1000 ->
     ConfigurationDisplay.formatFrequency (lit n) = integerNumeral n +:+ " Hz").
Proof.
  unfold ConfigurationDisplay.formatFrequency. rewrite !DisplayFacts.ge_lit.
  split; [| split; [| split]].
  - intros Hn Hm.
    destruct (Z.leb_spec 1000000000 n); [| lia].
    rewrite (DisplayFacts.toFixed3_quot n (n / 1000000) 1000000000).
    + rewrite Z.div_div by lia. reflexivity.
    + change (2 ^ 53) with 9007199254740992 in Hn.
      change (2 ^ 40) with 1099511627776. lia.
    + pose proof (Z.div_mod n 1000000 ltac:(lia)). lia.
  - intros Hn Hm.
    destruct (Z.leb_spec 1000000000 n); [lia |].
    destruct (Z.leb_spec 1000000 n); [| lia].
    rewrite (DisplayFacts.toFixed3_quot n (n / 1000) 1000000).
    + rewrite Z.div_div by lia. reflexivity.
    + change (2 ^ 40) with 1099511627776. lia.
    + pose proof (Z.div_mod n 1000 ltac:(lia)). lia.
  - intros Hn.
    destruct (Z.leb_spec 1000000000 n); [lia |].
    destruct (Z.leb_spec 1000000 n); [lia |].
    destruct (Z.leb_spec 1000 n); [| lia].
    rewrite (DisplayFacts.toFixed3_quot n n 1000).
    + reflexivity.
    + change (2 ^ 40) with 1099511627776. lia.
    + lia.
  - intros Hn.
    pose proof DisplayFacts.hertz_exhaustive as H.
    rewrite forallb_forall in H.
    specialize (H n). unfold ConfigurationDisplay.formatFrequency in H.
    rewrite !DisplayFacts.ge_lit in H.
    apply String.eqb_eq, H. apply in_map_iff. exists (Z.to_nat n).
    split; [lia |]. apply in_seq. lia.
Qed.

Lemma X13_witness :
  ConfigurationDisplay.formatFrequency (lit 915000000) = "915.000 MHz" /\
  ConfigurationDisplay.formatFrequency (lit 2400000000) = "2.400 GHz" /\
  ConfigurationDisplay.formatFrequency (lit 1234) = "1.234 kHz" /\
  ConfigurationDisplay.formatFrequency (lit 999) = "999 Hz".
Proof.
  split; [| split; [| split]].
  - destruct (X13_formatFrequency_is_exact 915000000) as (_ & H & _).
    rewrite H; [reflexivity | lia | reflexivity].
  - destruct (X13_formatFrequency_is_exact 2400000000) as (H & _).
    rewrite H; [reflexivity | split; [lia | reflexivity] | reflexivity].
  - destruct (X13_formatFrequency_is_exact 1234) as (_ & _ & H & _).
    rewrite H; [reflexivity | lia].
  - destruct (X13_formatFrequency_is_exact 999) as (_ & _ & _ & H).
    rewrite H; [reflexivity | lia].
Defined.

(** ** Text after a numeral *)

Module TrailingFacts.
Import JS Spec JSFacts.

Lemma takeDigits_stops (rest : string) :
  stops rest = true -> takeDigits rest = ([], rest).
Proof.
  destruct rest as [| c r]; [reflexivity |]. cbn [stops takeDigits].
  destruct (isDigit c); [discriminate | reflexivity].
Qed.

Lemma takeDigits_numeral_app (ds : list Z) (rest : string) :
  Forall isDecimalDigit ds -> stops rest = true ->
  takeDigits (numeral ds +:+ rest) = (ds, rest).
Proof.
  intros Hds Hrest. induction Hds as [| d ds Hd _ IH].
  - apply takeDigits_stops. exact Hrest.
  - change (numeral (d :: ds) +:+ rest)
      with (String (digitChar d) (numeral ds +:+ rest)).
    each_digit Hd; cbn [takeDigits]; rewrite IH; reflexivity.
Qed.

Lemma exponentPart_stops (rest : string) : stops rest = true -> exponentPart rest = 0.
Proof.
  destruct rest as [| c r]; [reflexivity |]. cbn [stops exponentPart].
  destruct (Ascii.eqb c "e"), (Ascii.eqb c "E"); try reflexivity;
    rewrite ?orb_true_r; discriminate.
Qed.

(** After the digits, a text that stops the numeral is not looked at. *)
Lemma after_digits_stops (ip : list Z) (rest : string) :
  stops rest = true ->
  match rest with
  | String "."%char r1' =>
      let '(fp, r2) := takeDigits r1' in
      match ip, fp with
      | [], [] => NaN
      | _, _ =>
          decimalValue (digitsValue (ip ++ fp))
                       (exponentPart r2 - Z.of_nat (length fp))
      end
  | _ =>
      match ip with
      | [] => NaN
      | _ => decimalValue (digitsValue ip) (exponentPart rest)
      end
  end
  = match ip with
    | [] => NaN
    | _ => decimalValue (digitsValue ip) 0
    end.
Proof.
  intros Hs. rewrite (exponentPart_stops rest Hs).
  destruct rest as [| c r]; [reflexivity |].
  cbn [stops] in Hs.
  destruct c as [[] [] [] [] [] [] [] []]; try reflexivity; discriminate Hs.
Qed.

Lemma parseFloatString_numeral_app (ds : list Z) (rest : string) :
  ds <> [] -> Forall isDecimalDigit ds -> stops rest = true ->
  parseFloatString (numeral ds +:+ rest) = parseFloatString (numeral ds).
Proof.
  intros Hne Hds Hrest.
  rewrite (parseFloatString_numeral ds Hne Hds).
  assert (parseUnsigned (numeral ds +:+ rest) = round_ratio (digitsValue ds) 1) as Hu.
  { unfold parseUnsigned. rewrite (takeDigits_numeral_app ds rest Hds Hrest).
    rewrite (after_digits_stops ds rest Hrest).
    destruct ds as [| d ds]; [contradiction |].
    inversion Hds as [| ? ? Hd _]; subst.
    assert (startsWith "Infinity" (numeral (d :: ds) +:+ rest) = false) as ->.
    { change (numeral (d :: ds) +:+ rest)
        with (String (digitChar d) (numeral ds +:+ rest)).
      each_digit Hd; reflexivity. }
    unfold decimalValue. cbn [Z.leb Z.compare]. rewrite Z.pow_0_r, Z.mul_1_r.
    reflexivity. }
  rewrite <- Hu. destruct ds as [| d ds]; [contradiction |].
  inversion Hds as [| ? ? Hd _]; subst.
  change (numeral (d :: ds) +:+ rest) with (String (digitChar d) (numeral ds +:+ rest)).
  unfold parseFloatString, trimStart.
  each_digit Hd; reflexivity.
Qed.

Lemma numeral_app_nonempty (ds : list Z) (rest : string) :
  ds <> [] -> String.eqb (numeral ds +:+ rest) "" = false.
Proof. destruct ds; [contradiction | reflexivity]. Qed.

End TrailingFacts.

(** X14. Whatever follows a decimal numeral without continuing it (a
    letter other than the exponent letter, a blank, a unit, a second
    minus sign) is ignored by validation: the main form and the wizard
    give the text the verdict of the numeral alone, and read the same
    number from both. *)
Theorem X14_text_after_a_numeral_is_ignored
  (f : string) (ds : list Z) (rest : string) :
  ds <> [] -> Forall Spec.isDecimalDigit ds -> Spec.stops rest = true ->
  parseFloatString (numeral ds +:+ rest) = parseFloatString (numeral ds) /\
  App.validateField f (VString (numeral ds +:+ rest))
    = App.validateField f (VString (numeral ds)) /\
  RFConfiguration.validateField f (numeral ds +:+ rest)
    = RFConfiguration.validateField f (numeral ds).
Proof.
  intros Hne Hds Hrest.
  pose proof (TrailingFacts.parseFloatString_numeral_app ds rest Hne Hds Hrest) as Hp.
  split; [exact Hp | split].
  - unfold App.validateField. cbn [parseFloat]. rewrite Hp. reflexivity.
  - unfold RFConfiguration.validateField.
    rewrite TrailingFacts.numeral_app_nonempty, ValidationFacts.numeral_nonempty
      by exact Hne.
    rewrite Hp. reflexivity.
Qed.

Lemma X14_witness :
  parseFloatString "47 dB" = parseFloatString "47" /\
  App.validateField "rfg" (VString "47 dB") = App.validateField "rfg" (VString "47") /\
  RFConfiguration.validateField "rfg" "47 dB" = RFConfiguration.validateField "rfg" "47".
Proof.
  apply (X14_text_after_a_numeral_is_ignored "rfg" [4; 7] " dB").
  - discriminate.
  - repeat constructor; discriminate.
  - reflexivity.
Defined.

(** X15. Choosing a file stores its name under [filePath] and touches no
    other key; cancelling the dialog changes nothing; and a later change
    of the protocol, to whatever value, keeps the stored path, which a
    submit then posts along with the protocol. *)
Theorem X15_the_file_path_outlives_the_protocol
  (fetch : App.request -> App.response) (st : App.state)
  (name proto : string) (k : string) :
  let st1 := App.handleFileSelect (Some name) st in
  let st2 := App.updateConfig "streamingProtocol" (VString proto) st1 in
  App.handleFileSelect None st = st /\
  App.config st1 !! "filePath" = Some (VString name) /\
  (k <> "filePath" -> App.config st1 !! k = App.config st !! k) /\
  App.config st2 !! "filePath" = Some (VString name) /\
  App.config st2 !! "streamingProtocol" = Some (VString proto) /\
  (forall req, req ∈ AppRun.sent (App.handleSubmit fetch st2) ->
     App.body req !! "filePath" = Some (VString name) /\
     App.body req !! "streamingProtocol" = Some (VString proto)).
Proof.
  intros st1 st2.
  assert (forall g v s, App.config (App.updateConfig g v s) = <[g := v]> (App.config s))
    as Hcfg.
  { intros g v s. unfold App.updateConfig.
    destruct (App.errors s !! g) as [m |]; [destruct (String.eqb m "") |]; reflexivity. }
  assert (App.config st2 !! "filePath" = Some (VString name)) as Hpath.
  { unfold st2, st1, App.handleFileSelect. rewrite !Hcfg.
    rewrite lookup_insert_ne by discriminate. apply lookup_insert_eq. }
  assert (App.config st2 !! "streamingProtocol" = Some (VString proto)) as Hproto.
  { unfold st2. rewrite Hcfg. apply lookup_insert_eq. }
  split; [reflexivity |]. split.
  { unfold st1, App.handleFileSelect. rewrite Hcfg. apply lookup_insert_eq. }
  split.
  { intros Hk. unfold st1, App.handleFileSelect. rewrite Hcfg.
    apply lookup_insert_ne. congruence. }
  split; [exact Hpath |]. split; [exact Hproto |].
  intros req Hin.
  destruct (AppFacts.handleSubmit_cases fetch st2) as [[_ E] | [_ (sm & E & _)]];
    rewrite E in Hin; cbn [AppRun.sent] in Hin; [inversion Hin |].
  apply list_elem_of_singleton in Hin as ->. cbn [App.body]. split; assumption.
Qed.

Lemma X15_witness :
  let fetch := fun _ : App.request => App.HttpOk ∅ in
  let st2 := App.updateConfig "streamingProtocol" (VString "uart")
               (App.handleFileSelect (Some "capture.bin") App.initialState) in
  App.config st2 !! "filePath" = Some (VString "capture.bin") /\
  (forall req, req ∈ AppRun.sent (App.handleSubmit fetch st2) ->
     App.body req !! "filePath" = Some (VString "capture.bin") /\
     App.body req !! "streamingProtocol" = Some (VString "uart")).
Proof.
  intros fetch st2.
  destruct (X15_the_file_path_outlives_the_protocol
              fetch App.initialState "capture.bin" "uart" "fc")
    as (_ & _ & _ & H1 & _ & H2).
  split; [exact H1 | exact H2].
Defined.
